(** * gnucash_to_beancount.directives

    A shallow embedding of [src/gnucash_to_beancount/directives.py], the
    factories that turn GnuCash entities (as piecash exposes them) into
    Beancount directives, together with the properties its specification
    states about them.

    Layout: Python values and strings; the [decimal] module under its
    default context; the GnuCash object model; Beancount's [data]
    records; the functions of [directives.py]; then lemmas and theorems. *)

From Stdlib Require Import ZArith NArith QArith Qpower List String Ascii Lia.
From stdpp Require Import base option list gmap strings.

Local Open Scope N_scope.

(** ** Python values *)

(** A Python [str] is a sequence of Unicode code points. *)
Abbreviation pystr := (list N).

(** A value that is either a [str] or Python's [None]. *)
Abbreviation pyval := (option (list N)).

Definition chr (a : ascii) : N := N_of_ascii a.
Arguments chr a%_char : simpl never.

(** An ASCII literal as a Python string. *)
Definition str (s : string) : pystr := N_of_ascii <$> list_ascii_of_string s.
Arguments str s%_string : simpl never.

(** Truth value of [if v] for a [str]-or-[None] value: [None] and the empty
    string are false. *)
Definition truthy (v : pyval) : bool :=
  match v with
  | Some (_ :: _) => true
  | _ => false
  end.

(** Exceptions raised by the module or by the library calls it makes. *)
Inductive exn :=
| KeyError
| AttributeError
| UnboundLocalError
| DivisionByZero
| InvalidOperation
| Overflow.

Inductive result (A : Type) :=
| Ok (a : A)
| Raise (e : exn).
Arguments Ok {A} a.
Arguments Raise {A} e.

#[global] Instance result_ret : MRet result := λ A a, Ok a.
#[global] Instance result_bind : MBind result := λ A B f m,
  match m with
  | Ok a => f a
  | Raise e => Raise e
  end.

#[global] Instance exn_eq_dec : EqDecision exn.
Proof. solve_decision. Defined.

(** [d[k]] on a dict: a missing key raises [KeyError]. *)
Definition dict_getitem {V} (d : gmap (list N) V) (k : pystr) : result V :=
  match d !! k with
  | Some v => Ok v
  | None => Raise KeyError
  end.

(** ** String operations *)

(** [s.split(sep)] for a one-character separator: never returns an empty
    list, and keeps empty pieces. *)
Fixpoint split (sep : N) (s : pystr) : list pystr :=
  match s with
  | [] => [[]]
  | c :: s' =>
      if c =? sep then [] :: split sep s'
      else match split sep s' with
           | p :: ps => (c :: p) :: ps
           | [] => [[c]]
           end
  end.

(** [sep.join(parts)]. *)
Fixpoint join (sep : N) (parts : list pystr) : pystr :=
  match parts with
  | [] => []
  | [p] => p
  | p :: ps => p ++ sep :: join sep ps
  end.

(** [re.sub(pattern, repl, s)] for a pattern that is a single character
    class and a one-character replacement. *)
Definition re_sub (pattern : N → bool) (repl : N) (s : pystr) : pystr :=
  (λ c, if pattern c then repl else c) <$> s.

(** ** The [decimal] module

    Finite decimals only: a sign, a coefficient and an exponent, as
    [Decimal._sign], [Decimal._int] and [Decimal._exp] hold them. The
    quantities and values of a ledger are numbers; infinities and NaNs are
    left out. Arithmetic is that of
    the default context: 28 digits, ROUND_HALF_EVEN, exponents within
    [-999999, 999999], traps on InvalidOperation, DivisionByZero and
    Overflow (the other signals only set flags and are not modelled). *)
Module decimal.
Local Open Scope Z_scope.

Record Decimal := mk {
  _sign : bool;
  _int : N;
  _exp : Z;
}.

#[global] Instance Decimal_eq_dec : EqDecision Decimal.
Proof. solve_decision. Defined.

Definition prec : Z := 28.
Definition Emin : Z := -999999.
Definition Emax : Z := 999999.
Definition Etiny : Z := Emin - prec + 1.
Definition Etop : Z := Emax - prec + 1.

(** [len(self._int)]: the number of decimal digits of the coefficient
    (one for zero). The first argument bounds the recursion; it halves
    while the number is divided by ten. *)
Fixpoint len_from (fuel : positive) (n : N) : Z :=
  if (n <? 10)%N then 1
  else match fuel with
       | xH => 1
       | xO f | xI f => 1 + len_from f (n / 10)%N
       end.

Definition len (n : N) : Z :=
  match n with
  | N0 => 1
  | Npos p => len_from p n
  end.

Definition pow10 (k : Z) : N := (10 ^ Z.to_N k)%N.

(** [self._int[:digits] or '0'] as a number. *)
Definition leading (n : N) (digits : Z) : N :=
  (n / pow10 (len n - digits))%N.

(** [self._int[digits:]] as a number. *)
Definition trailing (n : N) (digits : Z) : N :=
  (n mod pow10 (len n - digits))%N.

(** [_round_half_up]: 1 to round away from zero, 0 if the dropped
    digits are all zero, -1 otherwise. *)
Definition _round_half_up (self : Decimal) (digits : Z) : Z :=
  let n := _int self in
  if (5 * pow10 (len n - digits - 1) <=? trailing n digits)%N then 1
  else if (trailing n digits =? 0)%N then 0
  else -1.

Definition _exact_half (n : N) (digits : Z) : bool :=
  (trailing n digits =? 5 * pow10 (len n - digits - 1))%N.

Definition _round_half_even (self : Decimal) (digits : Z) : Z :=
  let n := _int self in
  if _exact_half n digits
     && ((digits =? 0) || N.even (leading n digits))
  then -1
  else _round_half_up self digits.

(** [Decimal._fix]: round to the context's precision and check the
    exponent range. *)
Definition _fix (self : Decimal) : result Decimal :=
  if (_int self =? 0)%N then
    let new_exp := Z.min (Z.max (_exp self) Etiny) Emax in
    Ok (mk (_sign self) 0 new_exp)
  else
    let exp_min := len (_int self) + _exp self - prec in
    if Etop <? exp_min then Raise Overflow
    else
      let self_is_subnormal := exp_min <? Etiny in
      let exp_min := if self_is_subnormal then Etiny else exp_min in
      if _exp self <? exp_min then
        let digits := len (_int self) + _exp self - exp_min in
        let '(self, digits) :=
          if digits <? 0 then (mk (_sign self) 1 (exp_min - 1), 0)
          else (self, digits) in
        let changed := _round_half_even self digits in
        let coeff := leading (_int self) digits in
        let '(coeff, exp_min) :=
          if 0 <? changed then
            let coeff := (coeff + 1)%N in
            if prec <? len coeff then ((coeff / 10)%N, exp_min + 1)
            else (coeff, exp_min)
          else (coeff, exp_min) in
        if Etop <? exp_min then Raise Overflow
        else Ok (mk (_sign self) coeff exp_min)
      else Ok self.

(** The loop [while exp < ideal_exp and coeff % 10 == 0] of
    [__truediv__]; it runs at most [ideal_exp - exp] times. *)
Fixpoint strip_zeros (fuel : nat) (coeff : N) (exp ideal_exp : Z)
  : N * Z :=
  match fuel with
  | O => (coeff, exp)
  | S fuel =>
      if (exp <? ideal_exp) && (coeff mod 10 =? 0)%N
      then strip_zeros fuel (coeff / 10)%N (exp + 1) ideal_exp
      else (coeff, exp)
  end.

(** [self / other]. *)
Definition __truediv__ (self other : Decimal) : result Decimal :=
  let sign := xorb (_sign self) (_sign other) in
  if (_int other =? 0)%N then
    if (_int self =? 0)%N then Raise InvalidOperation
    else Raise DivisionByZero
  else
    let '(coeff, exp) :=
      if (_int self =? 0)%N then (0%N, _exp self - _exp other)
      else
        let shift := len (_int other) - len (_int self) + prec + 1 in
        let exp := _exp self - _exp other - shift in
        let '(coeff, remainder) :=
          if 0 <=? shift
          then N.div_eucl (_int self * pow10 shift) (_int other)
          else N.div_eucl (_int self) (_int other * pow10 (- shift)) in
        if negb (remainder =? 0)%N then
          ((if (coeff mod 5 =? 0)%N then coeff + 1 else coeff)%N, exp)
        else
          let ideal_exp := _exp self - _exp other in
          strip_zeros (Z.to_nat (ideal_exp - exp)) coeff exp ideal_exp in
    _fix (mk sign coeff exp).

(** [self * other]. *)
Definition __mul__ (self other : Decimal) : result Decimal :=
  let resultsign := xorb (_sign self) (_sign other) in
  let resultexp := _exp self + _exp other in
  _fix (mk resultsign (_int self * _int other) resultexp).

(** [abs(self)]. *)
Definition __abs__ (self : Decimal) : result Decimal :=
  _fix (mk false (_int self) (_exp self)).

Definition is_zero (self : Decimal) : bool := (_int self =? 0)%N.
End decimal.

(** ** The GnuCash object model (piecash)

    Only the attributes that [directives.py] reads. Optional text
    attributes are [None] or a string. *)

Definition date := Z.

(** [getattr(obj, name)] on the text attributes of an entity; any other
    name raises [AttributeError]. *)
Class GetAttr (T : Type) := getattr : T → pystr → result pyval.

Module Commodity.
(** piecash objects compare by identity; [guid] stands for it, so that
    two commodities may share a mnemonic and still differ. *)
Record t := mk {
  guid : N;
  mnemonic : pystr;
  fullname : pyval;
}.
#[global] Instance eq_dec : EqDecision t.
Proof. solve_decision. Defined.
#[global] Instance attrs : GetAttr t := λ obj k,
  if decide (k = str "mnemonic") then Ok (Some (mnemonic obj))
  else if decide (k = str "fullname") then Ok (fullname obj)
  else Raise AttributeError.
End Commodity.

Module Account.
Record t := mk {
  fullname : pystr;
  type : pystr;
  code : pyval;
  description : pyval;
  commodity : option Commodity.t;
}.
#[global] Instance attrs : GetAttr t := λ obj k,
  if decide (k = str "fullname") then Ok (Some (fullname obj))
  else if decide (k = str "type") then Ok (Some (type obj))
  else if decide (k = str "code") then Ok (code obj)
  else if decide (k = str "description") then Ok (description obj)
  else Raise AttributeError.
End Account.

Module Price.
Record t := mk {
  date : Z;
  commodity : Commodity.t;
  currency : Commodity.t;
  value : decimal.Decimal;
}.
End Price.

Module Transaction.
(** [txn.splits] points back to the transaction from every split; the
    functions that need it take the splits next to the transaction. *)
Record t := mk {
  post_date : Z;
  description : pystr;
  num : pyval;
  notes : pyval;
  currency : Commodity.t;
}.
#[global] Instance attrs : GetAttr t := λ obj k,
  if decide (k = str "description") then Ok (Some (description obj))
  else if decide (k = str "num") then Ok (num obj)
  else if decide (k = str "notes") then Ok (notes obj)
  else Raise AttributeError.
End Transaction.

Module Split.
Record t := mk {
  memo : pyval;
  quantity : decimal.Decimal;
  value : decimal.Decimal;
  account : Account.t;
  transaction : Transaction.t;
}.
#[global] Instance attrs : GetAttr t := λ obj k,
  if decide (k = str "memo") then Ok (memo obj)
  else Raise AttributeError.
End Split.

(** ** Beancount's [data] records *)

Module data.
Record Amount := mkAmount {
  number : decimal.Decimal;
  currency : pystr;
}.

Record Open := mkOpen {
  open_meta : gmap (list N) pyval;
  open_date : date;
  open_account : pystr;
  open_currencies : option (list pystr);
  open_booking : pyval;
}.

Record Commodity := mkCommodity {
  commodity_meta : gmap (list N) pyval;
  commodity_date : date;
  commodity_currency : pystr;
}.

Record Price := mkPrice {
  price_meta : gmap (list N) pyval;
  price_date : date;
  price_currency : pystr;
  price_amount : Amount;
}.

Record Posting := mkPosting {
  posting_account : pystr;
  posting_units : Amount;
  posting_cost : option Amount;
  posting_price : option Amount;
  posting_flag : pyval;
  posting_meta : gmap (list N) pyval;
}.

Record Transaction := mkTransaction {
  transaction_meta : gmap (list N) pyval;
  transaction_date : date;
  transaction_flag : pystr;
  transaction_payee : pystr;
  transaction_narration : pystr;
  transaction_tags : pyval;
  transaction_links : pyval;
  transaction_postings : list Posting;
}.
End data.

(** ** directives.py *)

(** One round of the dict comprehension below: [v = getattr(obj, k)], kept
    under [k] if [v] is true. *)
Definition meta_step `{GetAttr T} (obj : T)
    (acc : result (gmap (list N) pyval)) (k : pystr)
  : result (gmap (list N) pyval) :=
  d ← acc; v ← getattr obj k; Ok (if truthy v then <[k := v]> d else d).

(** The dict comprehension
    [{k: v for k in fields.split(' ') for v in (getattr(obj, k),) if v}]. *)
Definition meta_from `{GetAttr T} (obj : T) (fields : pystr)
  : result (gmap (list N) pyval) :=
  foldl (meta_step obj) (Ok ∅) (split (chr " ") fields).

(** *** Accounts and Open *)

(** [beancount.core.account_types.AccountTypes] and its default value. *)
Record AccountTypes := mkAccountTypes {
  assets : pystr;
  liabilities : pystr;
  equity : pystr;
  income : pystr;
  expenses : pystr;
}.

Definition DEFAULT_ACCOUNT_TYPES : AccountTypes :=
  mkAccountTypes (str "Assets") (str "Liabilities") (str "Equity")
                 (str "Income") (str "Expenses").

Definition ACCOUNT_TYPES := DEFAULT_ACCOUNT_TYPES.

(** The dict comprehension
    [{gnc: bc for seq, bc in pairs for gnc in seq.split(' ')}]. *)
Definition _get_account_types_map (acc_types : AccountTypes)
  : gmap (list N) pyval :=
  let pairs : list (pystr * pyval) :=
    [ (str "ROOT", None);
      (str "ASSET BANK CASH MUTUAL RECEIVABLE STOCK TRADING",
       Some (assets acc_types));
      (str "EQUITY", Some (equity acc_types));
      (str "EXPENSE", Some (expenses acc_types));
      (str "INCOME", Some (income acc_types));
      (str "LIABILITY CREDIT PAYABLE", Some (liabilities acc_types)) ] in
  foldl (λ d '(seq, bc),
           foldl (λ d gnc, <[gnc := bc]> d) d (split (chr " ") seq))
        ∅ pairs.

Definition ACCOUNT_TYPES_MAP : gmap (list N) pyval :=
  _get_account_types_map ACCOUNT_TYPES.

Definition ACCOUNT_SEP : N := chr ":".

(** [parts[0] != acc_type] followed by [parts.insert(0, acc_type)]; the
    list holds strings and, once inserted, possibly [None]. *)
Definition insert_root (acc_type : pyval) (parts : list pyval)
  : list pyval :=
  if decide (head parts ≠ Some acc_type) then acc_type :: parts
  else parts.

(** *** Postings: the parts that do not look at account names *)

(** [Decimal('1.0')] and [Decimal('0')]. *)
Definition Decimal_1_0 : decimal.Decimal := decimal.mk false 10 (-1).
Definition Decimal_0 : decimal.Decimal := decimal.mk false 0 0.

Definition units_for (split : Split.t) : result data.Amount :=
  number ← decimal.__mul__ (Split.quantity split) Decimal_1_0;
  commodity ← match Account.commodity (Split.account split) with
              | Some c => Ok c
              | None => Raise AttributeError
              end;
  let currency := Commodity.mnemonic commodity in
  Ok (data.mkAmount number currency).

(** [except (decimal.DivisionByZero, decimal.InvalidOperation)]. *)
Definition caught (e : exn) : bool :=
  match e with
  | DivisionByZero | InvalidOperation => true
  | _ => false
  end.

(** The local [number] is unbound when the handler runs and the quantity
    is not zero; reading it then raises [UnboundLocalError]. *)
Definition price_for (split : Split.t) : result (option data.Amount) :=
  let acc_comm := Account.commodity (Split.account split) in
  let txn_comm := Transaction.currency (Split.transaction split) in
  if decide (acc_comm = Some txn_comm) then Ok None
  else
    number ← match (q ← decimal.__truediv__ (Split.value split)
                                            (Split.quantity split);
                    decimal.__abs__ q) with
             | Ok number => Ok (Some number)
             | Raise e =>
                 if caught e then
                   if decimal.is_zero (Split.quantity split)
                   then Ok (Some Decimal_0)
                   else Ok None
                 else Raise e
             end;
    let currency := Commodity.mnemonic txn_comm in
    match number with
    | Some number => Ok (Some (data.mkAmount number currency))
    | None => Raise UnboundLocalError
    end.

Definition Commodity (commodity : Commodity.t) (date : date)
  : result data.Commodity :=
  meta ← meta_from commodity (str "fullname");
  Ok (data.mkCommodity meta date (Commodity.mnemonic commodity)).

Definition Price (price : Price.t) : data.Price :=
  let meta := ∅ in
  let date := Price.date price in
  let currency := Commodity.mnemonic (Price.commodity price) in
  let amount := data.mkAmount (Price.value price)
                  (Commodity.mnemonic (Price.currency price)) in
  data.mkPrice meta date currency amount.

(** [postings=None] is the default argument; [postings or []]. *)
Definition Transaction (txn : Transaction.t)
    (postings : option (list data.Posting)) : result data.Transaction :=
  meta ← meta_from txn (str "num notes");
  let date := Transaction.post_date txn in
  let flag := str "*" in
  let payee := [] in
  let narration := Transaction.description txn in
  let postings := match postings with
                  | Some (p :: ps) => p :: ps
                  | _ => []
                  end in
  Ok (data.mkTransaction meta date flag payee narration None None postings).

Section Unicode.
(** The two Unicode tables the module consults through the standard
    library: the characters the regular-expression class [\w] matches,
    and [str.upper] on a one-character string (a full case mapping, so
    the result may be longer than one character). *)
Variable word : N → bool.
Variable upper : N → pystr.

(** [re.compile(r'[^\w_%s]' % ACCOUNT_SEP)] as a character class. *)
Definition INVALID_ACCOUNT_CHARS (c : N) : bool :=
  negb (word c || (c =? chr "_") || (c =? ACCOUNT_SEP)).

(** The generator [(p[0].upper() + p[1:] for p in parts if p)]. *)
Definition capitalize_parts (parts : list pyval) : list pystr :=
  omap (λ p, match p with
             | Some (c :: r) => Some (upper c ++ r)
             | _ => None
             end) parts.

Definition account_name (account : Account.t) : result pystr :=
  let name := re_sub INVALID_ACCOUNT_CHARS (chr "-")
                     (Account.fullname account) in
  acc_type ← dict_getitem ACCOUNT_TYPES_MAP (Account.type account);
  let parts := Some <$> split ACCOUNT_SEP name in
  let parts := insert_root acc_type parts in
  let parts := capitalize_parts parts in
  let name := join ACCOUNT_SEP parts in
  Ok name.

Definition Open (account : Account.t) (date : date) : result data.Open :=
  meta ← meta_from account (str "code description");
  name ← account_name account;
  let commodity := match Account.commodity account with
                   | Some c => Some [Commodity.mnemonic c]
                   | None => None
                   end in
  Ok (data.mkOpen meta date name commodity None).

Definition Posting (split : Split.t) : result data.Posting :=
  meta ← meta_from split (str "memo");
  account ← account_name (Split.account split);
  let cost := None in
  let flag := None in
  units ← units_for split;
  price ← price_for split;
  Ok (data.mkPosting account units cost price flag meta).

(** [splits] is [txn.splits]. *)
Definition TransactionWithPostings (txn : Transaction.t)
    (splits : list Split.t) : result data.Transaction :=
  postings ← mapM Posting splits;
  Transaction txn (Some postings).
End Unicode.

(** An excerpt of the Unicode tables, exact on ASCII and on the two code
    points U+01F0 (small j with caron) and U+030C (combining caron) that the
    examples below use. Every other code point falls back to "not a word
    character" and "unchanged by upper". *)
Definition uni_word (c : N) : bool :=
  (48 <=? c) && (c <=? 57) || (65 <=? c) && (c <=? 90)
  || (c =? 95) || (97 <=? c) && (c <=? 122) || (c =? 496).

Definition uni_upper (c : N) : pystr :=
  if (97 <=? c) && (c <=? 122) then [c - 32]
  else if c =? 496 then [74; 780]
  else [c].

(** ** Notions the specification speaks of *)

(** The path segments of an account identifier. *)
Definition segments (name : pystr) : list pystr := split ACCOUNT_SEP name.

(** The five root segments of the target format. *)
Definition ROOTS : list pystr :=
  [str "Assets"; str "Equity"; str "Expenses"; str "Income";
   str "Liabilities"].

(** The thirteen source categories other than the root pseudo-category. *)
Definition NON_ROOT_CATEGORIES : list pystr :=
  [str "ASSET"; str "BANK"; str "CASH"; str "MUTUAL"; str "RECEIVABLE";
   str "STOCK"; str "TRADING"; str "EQUITY"; str "EXPENSE"; str "INCOME";
   str "LIABILITY"; str "CREDIT"; str "PAYABLE"].

Section UnicodeNotions.
Variable word : N → bool.
Variable upper : N → pystr.

(** [p[0].upper() + p[1:]] on a non-empty segment. *)
Definition cap_first (p : pystr) : pystr :=
  match p with
  | [] => []
  | c :: r => upper c ++ r
  end.

(** The sanitised path of an account. *)
Definition sanitized (path : pystr) : pystr :=
  re_sub (INVALID_ACCOUNT_CHARS word) (chr "-") path.

(** The character-sanitised, case-normalised form of a path: sanitise,
    split, drop the empty segments, upper-case each first character and
    join again (steps 1, 2, 5, 6 and 7 of the translation, without the
    root insertion of step 4). *)
Definition normal_form (path : pystr) : pystr :=
  join ACCOUNT_SEP
    (cap_first <$> filter (λ p, p ≠ []) (segments (sanitized path))).

(** A character is in upper-case form when [str.upper] leaves it as it
    is: [c.upper() == c]. *)
Definition upper_case (c : N) : Prop := upper c = [c].

(** The characters the sanitiser lets through inside a segment, together
    with the hyphen it writes. *)
Definition segment_char (c : N) : Prop :=
  word c = true ∨ c = chr "_" ∨ c = chr "-".

(** Facts about the Unicode tables that the theorems rely on. Each holds
    of Python's tables. *)
Definition upper_nonempty : Prop := ∀ c, upper c ≠ [].
Definition upper_no_sep : Prop :=
  ∀ c, c ≠ ACCOUNT_SEP → ACCOUNT_SEP ∉ upper c.
Definition upper_fixes_capitals : Prop :=
  ∀ c, 65 ≤ c ≤ 90 → upper c = [c].
Definition upper_head_stable : Prop :=
  ∀ c d r, upper c = d :: r → upper d = [d].
Definition word_ascii_letters : Prop :=
  ∀ c, 65 ≤ c ≤ 90 ∨ 97 ≤ c ≤ 122 → word c = true.
End UnicodeNotions.

(** The pairs of the category table, one source category each. *)
Definition ACCOUNT_TYPES_ITEMS : list (pystr * pyval) :=
  [ (str "ROOT", None);
    (str "ASSET", Some (str "Assets"));
    (str "BANK", Some (str "Assets"));
    (str "CASH", Some (str "Assets"));
    (str "MUTUAL", Some (str "Assets"));
    (str "RECEIVABLE", Some (str "Assets"));
    (str "STOCK", Some (str "Assets"));
    (str "TRADING", Some (str "Assets"));
    (str "EQUITY", Some (str "Equity"));
    (str "EXPENSE", Some (str "Expenses"));
    (str "INCOME", Some (str "Income"));
    (str "LIABILITY", Some (str "Liabilities"));
    (str "CREDIT", Some (str "Liabilities"));
    (str "PAYABLE", Some (str "Liabilities")) ].

(** The segment list after the root check, when the category has a root:
    the root is put in front unless it is there already. *)
Definition with_root (root : pystr) (parts : list pystr) : list pystr :=
  if decide (head parts = Some root) then parts else root :: parts.

(** A segment as the translation leaves it: free of the separator and
    starting with a character in upper-case form. *)
Definition good_segment (upper : N → pystr) (p : pystr) : Prop :=
  (ACCOUNT_SEP ∉ p) ∧ ∃ c r, p = c :: r ∧ upper_case upper c.

(** The characters an identifier may hold: those the sanitiser leaves or
    writes inside a segment, the separator, and whatever [str.upper]
    makes of such a character at the start of a segment. *)
Definition identifier_char (word : N → bool) (upper : N → pystr) (c : N)
  : Prop :=
  segment_char word c ∨ c = ACCOUNT_SEP
  ∨ ∃ c0, segment_char word c0 ∧ c ∈ upper c0.

(** [d[k] = v] if [v] is true, as [meta_from] does for each field. *)
Definition meta_set (k : pystr) (v : pyval) (d : gmap (list N) pyval)
  : gmap (list N) pyval :=
  if truthy v then <[k := v]> d else d.

(** [abs(split.value / split.quantity)], the expression inside the [try]
    block of [price_for]. *)
Definition abs_quotient (value quantity : decimal.Decimal)
  : result decimal.Decimal :=
  q ← decimal.__truediv__ value quantity; decimal.__abs__ q.


(** ** Example entities *)

Definition acct (path type : pystr) : Account.t :=
  Account.mk path type None None None.

Definition bills := acct (str "Bills:Electric") (str "EXPENSE").
Definition checking := acct (str "Assets::my checking") (str "BANK").
Definition savings := acct (str "Assets:My Account") (str "ASSET").
Definition root_account := acct (str "Root Account") (str "ROOT").
Definition unknown := acct (str "X") (str "NOPE").
(** A path that is the single letter U+01F0, small j with caron. *)
Definition caron := acct [496] (str "ASSET").

(** An account with an empty code and a description. *)
Definition power : Account.t :=
  Account.mk (str "Bills:Electric") (str "EXPENSE")
             (Some []) (Some (str "Power")) None.

Definition USD : Commodity.t := Commodity.mk 1 (str "USD") None.
Definition EUR : Commodity.t :=
  Commodity.mk 2 (str "EUR") (Some (str "Euro")).
Definition euro_account : Account.t :=
  Account.mk (str "Assets:Euro") (str "BANK") None None (Some EUR).
Definition rent : Transaction.t :=
  Transaction.mk 0 (str "Rent") None None USD.

(** A split of [quantity] euros worth [value] dollars. *)
Definition euro_split (quantity value : decimal.Decimal) : Split.t :=
  Split.mk None quantity value euro_account rent.

(** No euros for one dollar. *)
Definition nothing_for_one : Split.t :=
  euro_split (decimal.mk false 0 0) (decimal.mk false 1 0).

(** No euros for no dollars. *)
Definition nothing_for_nothing : Split.t :=
  euro_split (decimal.mk false 0 0) (decimal.mk false 0 (-2)).

(** Two euros for three dollars. *)
Definition two_for_three : Split.t :=
  euro_split (decimal.mk false 2 0) (decimal.mk false 3 0).




(** A dollar account. *)
Definition dollar_account (path type : pystr) : Account.t :=
  Account.mk path type None None (Some USD).

(** * Properties *)

(** ** The error monad *)

Lemma bind_Ok {A B} (a : A) (f : A → result B) : (Ok a ≫= f) = f a.
Proof. reflexivity. Qed.

Lemma bind_Raise {A B} e (f : A → result B) : (Raise e ≫= f) = Raise e.
Proof. reflexivity. Qed.

(** ** Strings *)

Lemma split_ne_nil sep s : split sep s ≠ [].
Proof.
  destruct s as [|c s]; simpl; [done|].
  destruct (c =? sep); [done|]. by destruct (split sep s).
Qed.

Lemma split_nosep sep s : sep ∉ s → split sep s = [s].
Proof.
  induction s as [|c s IH]; simpl; intros Hs; [done|].
  apply not_elem_of_cons in Hs as [Hc Hs].
  destruct (N.eqb_spec c sep) as [->|_]; [done|]. by rewrite IH.
Qed.

Lemma split_app sep p s :
  sep ∉ p → split sep (p ++ sep :: s) = p :: split sep s.
Proof.
  induction p as [|c p IH]; simpl; intros Hp.
  - by rewrite N.eqb_refl.
  - apply not_elem_of_cons in Hp as [Hc Hp].
    destruct (N.eqb_spec c sep) as [->|_]; [done|]. by rewrite IH.
Qed.

Lemma split_join sep ps :
  ps ≠ [] → Forall (λ p, sep ∉ p) ps → split sep (join sep ps) = ps.
Proof.
  induction ps as [|p ps IH]; [done|]. intros _ Hall.
  apply Forall_cons in Hall as [Hp Hps].
  destruct ps as [|p' ps].
  - by apply split_nosep.
  - change (join sep (p :: p' :: ps))
      with (p ++ sep :: join sep (p' :: ps)).
    rewrite split_app; [|done]. f_equal. by apply IH.
Qed.

Lemma split_Forall_nosep sep s : Forall (λ p, sep ∉ p) (split sep s).
Proof.
  induction s as [|c s IH]; simpl.
  - repeat constructor. apply not_elem_of_nil.
  - destruct (N.eqb_spec c sep) as [->|Hc].
    + constructor; [apply not_elem_of_nil|done].
    + destruct (split sep s) as [|p ps].
      * repeat constructor. by rewrite list_elem_of_singleton.
      * apply Forall_cons in IH as [Hp Hps].
        constructor; [|done]. by apply not_elem_of_cons.
Qed.

Lemma split_fmap sep (f : N → N) (s : pystr) :
  (∀ c, f c = sep ↔ c = sep) →
  split sep (f <$> s) = fmap (M := list) f <$> split sep s.
Proof.
  intros Hf. induction s as [|c s IH]; [done|].
  rewrite fmap_cons. simpl. rewrite IH.
  destruct (N.eqb_spec c sep) as [->|Hc].
  - rewrite (proj2 (Hf sep) eq_refl), N.eqb_refl. done.
  - destruct (N.eqb_spec (f c) sep) as [Hfc|_].
    + by apply (proj1 (Hf c)) in Hfc.
    + by destruct (split sep s).
Qed.

Lemma join_split sep s : join sep (split sep s) = s.
Proof.
  induction s as [|c s IH]; [done|]. simpl.
  pose proof (split_ne_nil sep s) as Hne.
  destruct (N.eqb_spec c sep) as [->|_].
  - destruct (split sep s) as [|p ps]; [done|]. simpl in *. by rewrite IH.
  - destruct (split sep s) as [|p ps]; [done|].
    destruct ps; simpl in *; by rewrite <- IH.
Qed.

(** ** The category table *)


Lemma ACCOUNT_TYPES_MAP_items :
  ACCOUNT_TYPES_MAP = list_to_map ACCOUNT_TYPES_ITEMS.
Proof. reflexivity. Qed.

Lemma ACCOUNT_TYPES_MAP_lookup ty v :
  ACCOUNT_TYPES_MAP !! ty = Some v ↔ (ty, v) ∈ ACCOUNT_TYPES_ITEMS.
Proof.
  rewrite ACCOUNT_TYPES_MAP_items. symmetry.
  apply elem_of_list_to_map. vm_compute.
  repeat (constructor; [by rewrite ?elem_of_cons, ?elem_of_nil; intuition congruence|]).
  constructor.
Qed.

Lemma lookup_non_root ty :
  ty ∈ NON_ROOT_CATEGORIES →
  ∃ root, root ∈ ROOTS ∧ ACCOUNT_TYPES_MAP !! ty = Some (Some root).
Proof.
  unfold NON_ROOT_CATEGORIES. rewrite !elem_of_cons, elem_of_nil.
  intros H.
  repeat (destruct H as [->|H];
          [match goal with
           | |- ∃ root, _ ∧ ?m !! ?k = _ =>
               let r := eval vm_compute in (m !! k) in
               match r with
               | Some (Some ?root) =>
                   exists root; split;
                   [compute_done
                   |vm_compute; reflexivity]
               end
           end|]).
  done.
Qed.

Lemma lookup_root_inv ty root :
  ACCOUNT_TYPES_MAP !! ty = Some (Some root) → root ∈ ROOTS.
Proof.
  intros H%ACCOUNT_TYPES_MAP_lookup. unfold ACCOUNT_TYPES_ITEMS in H.
  repeat (apply elem_of_cons in H as [H|H];
          [simplify_eq; compute_done|]).
  by apply elem_of_nil in H.
Qed.

Lemma lookup_none_inv ty :
  ACCOUNT_TYPES_MAP !! ty = Some None ↔ ty = str "ROOT".
Proof.
  split.
  - intros H%ACCOUNT_TYPES_MAP_lookup. unfold ACCOUNT_TYPES_ITEMS in H.
    repeat (apply elem_of_cons in H as [H|H]; [by simplify_eq|]).
    by apply elem_of_nil in H.
  - intros ->. vm_compute. reflexivity.
Qed.

Lemma ROOTS_shape root :
  root ∈ ROOTS →
  ∃ c r, root = c :: r ∧ (65 ≤ c ≤ 90) ∧ (ACCOUNT_SEP ∉ root)
         ∧ Forall (λ x, 65 ≤ x ≤ 90 ∨ 97 ≤ x ≤ 122) root.
Proof.
  unfold ROOTS. rewrite !elem_of_cons, elem_of_nil. intros H.
  repeat (destruct H as [->|H];
          [eexists _, _; split; [vm_compute; reflexivity|];
           split; [lia|]; split; compute_done|]).
  done.
Qed.

(** ** Account names *)


Lemma insert_root_None (parts : list pystr) :
  insert_root None (Some <$> parts) = None :: (Some <$> parts).
Proof.
  unfold insert_root. case_decide as H; [done|]. by destruct parts.
Qed.

Lemma insert_root_Some root (parts : list pystr) :
  insert_root (Some root) (Some <$> parts) = Some <$> with_root root parts.
Proof.
  unfold insert_root, with_root.
  destruct parts as [|p ps]; repeat case_decide; by simplify_eq/=.
Qed.

Lemma with_root_cons root parts :
  ∃ rest, with_root root parts = root :: rest
          ∧ (rest = parts ∨ parts = root :: rest).
Proof.
  unfold with_root. case_decide as H.
  - destruct parts as [|p ps]; simplify_eq/=. eauto.
  - eauto.
Qed.

Lemma with_root_head root parts :
  head parts = Some root → with_root root parts = parts.
Proof. intros H. unfold with_root. by rewrite decide_True. Qed.

Section AccountName.
Variable word : N → bool.
Variable upper : N → pystr.

Lemma sanitized_char_sep c :
  (if INVALID_ACCOUNT_CHARS word c then chr "-" else c) = ACCOUNT_SEP
  ↔ c = ACCOUNT_SEP.
Proof.
  unfold INVALID_ACCOUNT_CHARS. split.
  - destruct (negb _); [|done]. by intros [=].
  - intros ->. by rewrite N.eqb_refl, orb_true_r.
Qed.

Lemma segments_sanitized path :
  segments (sanitized word path)
  = fmap (M := list) (sanitized word) (segments path).
Proof. apply split_fmap, sanitized_char_sep. Qed.

Lemma sanitized_chars path :
  Forall (λ c, segment_char word c ∨ c = ACCOUNT_SEP)
         (sanitized word path).
Proof.
  unfold sanitized, re_sub. apply Forall_fmap, Forall_true. intros c.
  unfold INVALID_ACCOUNT_CHARS, segment_char. simpl.
  destruct (word c) eqn:Hw; simpl; [by left; left|].
  destruct (N.eqb_spec c (chr "_")); simpl; [by left; right; left|].
  destruct (N.eqb_spec c ACCOUNT_SEP); simpl; [by right|].
  left. right. by right.
Qed.

Lemma capitalize_parts_fmap (parts : list pystr) :
  capitalize_parts upper (Some <$> parts)
  = cap_first upper <$> filter (λ p, p ≠ []) parts.
Proof.
  induction parts as [|p ps IH]; [done|].
  rewrite fmap_cons, filter_cons. unfold capitalize_parts in *. simpl.
  destruct p as [|c r]; simpl.
  - exact IH.
  - f_equal. exact IH.
Qed.

Lemma account_name_lookup a acc_type :
  ACCOUNT_TYPES_MAP !! Account.type a = Some acc_type →
  account_name word upper a
  = Ok (join ACCOUNT_SEP
          (capitalize_parts upper
             (insert_root acc_type
                (Some <$> segments (sanitized word (Account.fullname a)))))).
Proof.
  intros H. unfold account_name, dict_getitem. by rewrite H.
Qed.

Lemma account_name_unknown a :
  ACCOUNT_TYPES_MAP !! Account.type a = None →
  account_name word upper a = Raise KeyError.
Proof.
  intros H. unfold account_name, dict_getitem. by rewrite H.
Qed.

Lemma account_name_no_root a :
  ACCOUNT_TYPES_MAP !! Account.type a = Some None →
  account_name word upper a
  = Ok (normal_form word upper (Account.fullname a)).
Proof.
  intros H. rewrite (account_name_lookup _ _ H), insert_root_None.
  unfold normal_form. rewrite <- capitalize_parts_fmap. done.
Qed.

Lemma account_name_with_root a root :
  ACCOUNT_TYPES_MAP !! Account.type a = Some (Some root) →
  account_name word upper a
  = Ok (join ACCOUNT_SEP
          (cap_first upper <$>
             filter (λ p, p ≠ [])
               (with_root root
                  (segments (sanitized word (Account.fullname a)))))).
Proof.
  intros H. rewrite (account_name_lookup _ _ H), insert_root_Some.
  by rewrite capitalize_parts_fmap.
Qed.
End AccountName.


Section Segments.
Variable word : N → bool.
Variable upper : N → pystr.

Lemma cap_first_no_sep p :
  upper_no_sep upper → ACCOUNT_SEP ∉ p → ACCOUNT_SEP ∉ cap_first upper p.
Proof.
  intros Hsep Hp. destruct p as [|c r]; [done|]. simpl.
  apply not_elem_of_cons in Hp as [Hc Hr].
  rewrite elem_of_app. intros [H|H]; [|done].
  by apply (Hsep c).
Qed.

Lemma cap_first_good p :
  upper_nonempty upper → upper_no_sep upper → upper_head_stable upper →
  p ≠ [] → ACCOUNT_SEP ∉ p → good_segment upper (cap_first upper p).
Proof.
  intros Hne Hsep Hst Hp Hs. split; [by apply cap_first_no_sep|].
  destruct p as [|c r]; [done|]. simpl.
  destruct (upper c) as [|d t] eqn:Hu; [by destruct (Hne c)|].
  exists d, (t ++ r). split; [done|]. by apply (Hst c d t).
Qed.

Lemma normalized_no_sep (parts : list pystr) :
  upper_no_sep upper →
  Forall (λ p, ACCOUNT_SEP ∉ p) parts →
  Forall (λ p, ACCOUNT_SEP ∉ p)
         (cap_first upper <$> filter (λ p, p ≠ []) parts).
Proof.
  intros Hsep Hall. apply Forall_fmap.
  apply Forall_forall. intros p [Hp Hin]%list_elem_of_filter. simpl.
  apply cap_first_no_sep; [done|].
  by apply (proj1 (Forall_forall _ _) Hall).
Qed.

Lemma normalized_good (parts : list pystr) :
  upper_nonempty upper → upper_no_sep upper → upper_head_stable upper →
  Forall (λ p, ACCOUNT_SEP ∉ p) parts →
  Forall (good_segment upper)
         (cap_first upper <$> filter (λ p, p ≠ []) parts).
Proof.
  intros Hne Hsep Hst Hall. apply Forall_fmap.
  apply Forall_forall. intros p [Hp Hin]%list_elem_of_filter. simpl.
  apply cap_first_good; try done.
  by apply (proj1 (Forall_forall _ _) Hall).
Qed.

Lemma good_segment_no_sep parts :
  Forall (good_segment upper) parts →
  Forall (λ p, ACCOUNT_SEP ∉ p) parts.
Proof. intros H. eapply Forall_impl; [exact H|]. by intros p [? _]. Qed.

Lemma cap_first_fixed p : good_segment upper p → cap_first upper p = p.
Proof. intros [_ (c & r & -> & Hc)]. simpl. by rewrite Hc. Qed.

Lemma normalized_fixed parts :
  Forall (good_segment upper) parts →
  cap_first upper <$> filter (λ p, p ≠ []) parts = parts.
Proof.
  induction 1 as [|p ps Hp _ IH]; [done|].
  rewrite filter_cons, decide_True.
  - rewrite fmap_cons, IH. f_equal. by apply cap_first_fixed.
  - by destruct Hp as [_ (c & r & -> & _)].
Qed.

Lemma with_root_no_sep root parts :
  ACCOUNT_SEP ∉ root →
  Forall (λ p, ACCOUNT_SEP ∉ p) parts →
  Forall (λ p, ACCOUNT_SEP ∉ p) (with_root root parts).
Proof. intros Hr Hps. unfold with_root. case_decide; [done|]. by constructor. Qed.

Lemma filter_nonempty_fmap_length (f : N → N) (parts : list pystr) :
  length (filter (λ p, p ≠ []) (fmap (M := list) f <$> parts))
  = length (filter (λ p, p ≠ []) parts).
Proof.
  induction parts as [|p ps IH]; [done|].
  rewrite fmap_cons, !filter_cons.
  destruct p as [|c r]; simpl; [done|]. by rewrite IH.
Qed.

(** What [account_name] returns, in terms of the segment lists. *)
Lemma account_name_segments a acc_type :
  ACCOUNT_TYPES_MAP !! Account.type a = Some acc_type →
  ∃ parts, Forall (λ p, ACCOUNT_SEP ∉ p) parts
    ∧ account_name word upper a
      = Ok (join ACCOUNT_SEP
              (cap_first upper <$> filter (λ p, p ≠ []) parts))
    ∧ ∀ p, p ∈ parts →
           p ∈ segments (sanitized word (Account.fullname a))
           ∨ p ∈ ROOTS.
Proof.
  intros H.
  pose proof (split_Forall_nosep ACCOUNT_SEP
                (sanitized word (Account.fullname a))) as Hs.
  destruct acc_type as [root|].
  - exists (with_root root
              (segments (sanitized word (Account.fullname a)))).
    pose proof (lookup_root_inv _ _ H) as Hroot.
    destruct (ROOTS_shape _ Hroot) as (c & r & _ & _ & Hsep & _).
    split; [by apply with_root_no_sep|].
    split; [by apply account_name_with_root|].
    intros p. unfold with_root. case_decide; [by left|].
    rewrite elem_of_cons. intros [->|Hp]; [by right|by left].
  - exists (segments (sanitized word (Account.fullname a))).
    split; [done|]. split; [by apply account_name_no_root|]. by left.
Qed.
End Segments.

(** ** The table excerpt satisfies the table facts *)

Lemma uni_upper_nonempty : upper_nonempty uni_upper.
Proof. intros c. unfold uni_upper. by repeat case_match. Qed.

Lemma uni_upper_no_sep : upper_no_sep uni_upper.
Proof.
  intros c Hc. unfold uni_upper, ACCOUNT_SEP in *.
  change (chr ":") with 58 in *.
  destruct (N.leb_spec 97 c); destruct (N.leb_spec c 122); simpl;
    try destruct (N.eqb_spec c 496); rewrite ?elem_of_cons, elem_of_nil;
    lia.
Qed.

Lemma uni_upper_fixes_capitals : upper_fixes_capitals uni_upper.
Proof.
  intros c Hc. unfold uni_upper.
  destruct (N.leb_spec 97 c); [lia|]. simpl.
  destruct (N.eqb_spec c 496); [lia|done].
Qed.

Lemma uni_upper_head_stable : upper_head_stable uni_upper.
Proof.
  intros c d r. unfold uni_upper at 1.
  destruct ((97 <=? c) && (c <=? 122)) eqn:E1.
  - intros [= <- <-].
    apply andb_true_iff in E1 as [?%N.leb_le ?%N.leb_le].
    apply uni_upper_fixes_capitals. lia.
  - destruct (N.eqb_spec c 496) as [->|E2]; intros [= <- <-].
    + apply uni_upper_fixes_capitals. lia.
    + unfold uni_upper. rewrite E1. by destruct (N.eqb_spec c 496).
Qed.

Lemma uni_word_ascii_letters : word_ascii_letters uni_word.
Proof.
  intros c Hc. unfold uni_word.
  destruct (N.leb_spec 65 c); destruct (N.leb_spec c 90);
    destruct (N.leb_spec 97 c); destruct (N.leb_spec c 122); simpl;
    rewrite ?orb_true_r; try done; lia.
Qed.

(** ** Theorems on account names *)

Lemma split_elem sep s p c : p ∈ split sep s → c ∈ p → c ∈ s.
Proof.
  revert p. induction s as [|c0 s IH]; intros p; simpl.
  - rewrite list_elem_of_singleton. by intros ->.
  - destruct (N.eqb_spec c0 sep) as [->|_].
    + rewrite elem_of_cons. intros [->|Hp] Hc; [by apply elem_of_nil in Hc|].
      apply elem_of_cons. right. by apply (IH p).
    + destruct (split sep s) as [|q qs] eqn:Hq.
      * by destruct (split_ne_nil sep s).
      * rewrite elem_of_cons. intros [->|Hp] Hc.
        -- apply elem_of_cons in Hc as [->|Hc]; [by left|].
           apply elem_of_cons. right. apply (IH q); [by left|done].
        -- apply elem_of_cons. right. apply (IH p); [by right|done].
Qed.

Lemma Forall_join (P : N → Prop) sep parts :
  P sep → Forall (Forall P) parts → Forall P (join sep parts).
Proof.
  intros Hsep. induction 1 as [|p ps Hp Hps IH]; [constructor|].
  destruct ps as [|p' ps]; [done|].
  change (join sep (p :: p' :: ps)) with (p ++ sep :: join sep (p' :: ps)).
  apply Forall_app. split; [done|]. by constructor.
Qed.

Section AccountTheorems.
Variable word : N → bool.
Variable upper : N → pystr.


(** C7, amended. For every account whose path's first segment already
    equals the root of its category, [account_name] returns exactly the
    sanitised, case-normalised form of the path; no segment is
    inserted, and the identifier has as many segments as the path has
    non-empty ones (empty segments are dropped). *)
Theorem account_name_rooted_path a root :
  upper_no_sep upper → word_ascii_letters word →
  ACCOUNT_TYPES_MAP !! Account.type a = Some (Some root) →
  head (segments (Account.fullname a)) = Some root →
  account_name word upper a
  = Ok (normal_form word upper (Account.fullname a))
  ∧ length (segments (normal_form word upper (Account.fullname a)))
    = length (filter (λ p, p ≠ []) (segments (Account.fullname a))).
Proof.
  intros Hsep Hword Hl Hhead.
  pose proof (lookup_root_inv _ _ Hl) as Hroot.
  destruct (ROOTS_shape _ Hroot) as (c & r & Hcr & _ & Hs & Hletters).
  assert (root ≠ []) as Hnil by by rewrite Hcr.
  clear c r Hcr.
  assert (sanitized word root = root) as Hfix.
  { unfold sanitized, re_sub. clear -Hletters Hword.
    induction Hletters as [|x xs Hx _ IH]; [done|].
    rewrite fmap_cons, IH. f_equal.
    unfold INVALID_ACCOUNT_CHARS. by rewrite (Hword x Hx). }
  assert (head (segments (sanitized word (Account.fullname a)))
          = Some root) as Hhead'.
  { rewrite segments_sanitized.
    destruct (segments (Account.fullname a)) as [|p ps]; [done|].
    simpl in Hhead. injection Hhead as ->. by rewrite fmap_cons, Hfix. }
  split.
  - rewrite (account_name_with_root word upper _ _ Hl).
    by rewrite with_root_head.
  - unfold normal_form, segments at 1.
    rewrite split_join.
    + rewrite length_fmap, segments_sanitized.
      unfold sanitized, re_sub. apply filter_nonempty_fmap_length.
    + destruct (segments (sanitized word (Account.fullname a)))
        as [|p ps]; [done|].
      simpl in Hhead'. injection Hhead' as ->.
      by rewrite filter_cons, decide_True.
    + apply normalized_no_sep; [done|]. apply split_Forall_nosep.
Qed.

(** C10, amended. For every account whose own category is the root
    pseudo-category, the table yields no root, the comparison with the
    first segment never matches and [None] is put in front of the
    segment list; the generator then drops it together with the empty
    segments, so the identifier is the sanitised, case-normalised path
    alone, without any placeholder segment. *)
Theorem account_name_root_category a :
  Account.type a = str "ROOT" →
  let parts := Some <$> segments (sanitized word (Account.fullname a)) in
  ACCOUNT_TYPES_MAP !! Account.type a = Some None
  ∧ insert_root None parts = None :: parts
  ∧ capitalize_parts upper (None :: parts) = capitalize_parts upper parts
  ∧ account_name word upper a
    = Ok (normal_form word upper (Account.fullname a)).
Proof.
  intros Hty parts.
  assert (ACCOUNT_TYPES_MAP !! Account.type a = Some None) as Hl
    by by apply lookup_none_inv.
  split; [done|]. split; [apply insert_root_None|]. split; [done|].
  by apply account_name_no_root.
Qed.
End AccountTheorems.


Section AccountTheorems2.
Variable word : N → bool.
Variable upper : N → pystr.

(** C6, amended. Translation is idempotent on every identifier that the
    sanitiser leaves unchanged: if [account_name] returned [name] for an
    account, [name] holds no character the sanitiser rewrites, and a
    category maps to the first segment of [name], then translating
    [name] as a path under that category returns [name] again. *)
Theorem account_name_idempotent a name ty root code description commodity :
  upper_nonempty upper → upper_no_sep upper → upper_head_stable upper →
  account_name word upper a = Ok name →
  sanitized word name = name →
  ACCOUNT_TYPES_MAP !! ty = Some (Some root) →
  head (segments name) = Some root →
  account_name word upper (Account.mk name ty code description commodity)
  = Ok name.
Proof.
  intros Hne Hsep Hst Hname Hsan Hl Hhead.
  destruct (ACCOUNT_TYPES_MAP !! Account.type a) as [acc_type|] eqn:Hla;
    [|by rewrite (account_name_unknown word upper a Hla) in Hname].
  destruct (account_name_segments word upper a acc_type Hla)
    as (parts & Hnosep & Heq & _).
  rewrite Heq in Hname. injection Hname as <-.
  pose proof (normalized_good upper parts Hne Hsep Hst Hnosep) as Hgood.
  set (Q := cap_first upper <$> filter (λ p, p ≠ []) parts) in *.
  destruct (ROOTS_shape _ (lookup_root_inv _ _ Hl))
    as (c & r & Hcr & _ & _ & _).
  assert (Q ≠ []) as HQ.
  { intros HQ. rewrite HQ in Hhead. simpl in Hhead. congruence. }
  assert (segments (join ACCOUNT_SEP Q) = Q) as Hseg.
  { apply split_join; [done|]. by apply (good_segment_no_sep upper). }
  rewrite (account_name_with_root word upper _ root) by done.
  simpl Account.fullname. rewrite Hsan, Hseg.
  rewrite with_root_head by by rewrite <- Hseg.
  by rewrite (normalized_fixed upper).
Qed.

(** C4, amended. For every account with a recognised category, every
    character of the identifier [account_name] returns is a word
    character (underscore included), a hyphen, the path separator, or
    one of the characters [str.upper] produced from a word character or
    hyphen at the start of a segment. *)
Theorem account_name_chars a acc_type :
  word_ascii_letters word →
  ACCOUNT_TYPES_MAP !! Account.type a = Some acc_type →
  ∃ name, account_name word upper a = Ok name
    ∧ Forall (identifier_char word upper) name.
Proof.
  intros Hword Hl.
  destruct (account_name_segments word upper a acc_type Hl)
    as (parts & Hnosep & -> & Hin).
  eexists; split; [done|].
  apply Forall_join; [by right; left|].
  apply Forall_fmap, Forall_forall.
  intros p [Hp Hpin]%list_elem_of_filter. simpl.
  assert (Forall (segment_char word) p) as Hchars.
  { apply Forall_forall. intros x Hx.
    destruct (Hin p Hpin) as [Hseg|Hroot].
    - pose proof (sanitized_chars word (Account.fullname a)) as Hall.
      pose proof (split_elem _ _ _ _ Hseg Hx) as Hxs.
      destruct (proj1 (Forall_forall _ _) Hall x Hxs) as [?| ->]; [done|].
      by destruct (proj1 (Forall_forall _ _) Hnosep p Hpin).
    - destruct (ROOTS_shape _ Hroot) as (_ & _ & _ & _ & _ & Hletters).
      left. apply Hword. by apply (proj1 (Forall_forall _ _) Hletters). }
  destruct p as [|c r]; [done|]. simpl.
  apply Forall_cons in Hchars as [Hc Hr].
  apply Forall_app. split.
  - apply Forall_forall. intros x Hx. right; right. by exists c.
  - eapply Forall_impl; [exact Hr|]. intros x Hx. by left.
Qed.
End AccountTheorems2.

(** ** Example accounts *)


Example account_name_bills :
  account_name uni_word uni_upper bills = Ok (str "Expenses:Bills:Electric").
Proof. vm_compute. reflexivity. Qed.

Example account_name_checking :
  account_name uni_word uni_upper checking = Ok (str "Assets:My-checking").
Proof. vm_compute. reflexivity. Qed.

Example account_name_unknown_category :
  account_name uni_word uni_upper unknown = Raise KeyError.
Proof. vm_compute. reflexivity. Qed.


(** C4 as stated fails: a space in the path becomes a hyphen, which is
    neither a word character nor the separator. *)
Lemma account_name_chars_hyphen :
  account_name uni_word uni_upper savings = Ok (str "Assets:My-Account")
  ∧ ¬ Forall (λ c, uni_word c = true ∨ c = ACCOUNT_SEP)
             (str "Assets:My-Account").
Proof.
  split; [vm_compute; reflexivity|]. intros H.
  assert (chr "-" ∈ str "Assets:My-Account") as Hin by compute_done.
  destruct (proj1 (Forall_forall _ _) H _ Hin) as [Hw|Hs];
    vm_compute in Hw || vm_compute in Hs; discriminate.
Qed.

Lemma account_name_chars_witness :
  ACCOUNT_TYPES_MAP !! Account.type savings = Some (Some (str "Assets"))
  ∧ ∃ name, account_name uni_word uni_upper savings = Ok name
      ∧ Forall (identifier_char uni_word uni_upper) name.
Proof.
  assert (ACCOUNT_TYPES_MAP !! Account.type savings
          = Some (Some (str "Assets"))) as H by (vm_compute; reflexivity).
  split; [exact H|].
  exact (account_name_chars uni_word uni_upper savings _
           uni_word_ascii_letters H).
Defined.

(** C6 as stated fails: upper-casing U+01F0 gives J followed by the
    combining caron U+030C, which is not a word character, so a second
    translation turns it into a hyphen. *)
Lemma account_name_not_idempotent :
  account_name uni_word uni_upper caron = Ok (str "Assets:" ++ [74; 780])
  ∧ ACCOUNT_TYPES_MAP !! str "ASSET" = Some (Some (str "Assets"))
  ∧ head (segments (str "Assets:" ++ [74; 780])) = Some (str "Assets")
  ∧ account_name uni_word uni_upper
      (acct (str "Assets:" ++ [74; 780]) (str "ASSET"))
    = Ok (str "Assets:J-")
  ∧ account_name uni_word uni_upper
      (acct (str "Assets:" ++ [74; 780]) (str "ASSET"))
    ≠ Ok (str "Assets:" ++ [74; 780]).
Proof.
  repeat split; try (vm_compute; reflexivity).
  vm_compute. discriminate.
Qed.

Lemma account_name_idempotent_witness :
  account_name uni_word uni_upper bills = Ok (str "Expenses:Bills:Electric")
  ∧ sanitized uni_word (str "Expenses:Bills:Electric")
    = str "Expenses:Bills:Electric"
  ∧ ACCOUNT_TYPES_MAP !! str "EXPENSE" = Some (Some (str "Expenses"))
  ∧ head (segments (str "Expenses:Bills:Electric")) = Some (str "Expenses")
  ∧ account_name uni_word uni_upper
      (acct (str "Expenses:Bills:Electric") (str "EXPENSE"))
    = Ok (str "Expenses:Bills:Electric").
Proof.
  assert (account_name uni_word uni_upper bills
          = Ok (str "Expenses:Bills:Electric")) as H1
    by (vm_compute; reflexivity).
  assert (sanitized uni_word (str "Expenses:Bills:Electric")
          = str "Expenses:Bills:Electric") as H2
    by (vm_compute; reflexivity).
  assert (ACCOUNT_TYPES_MAP !! str "EXPENSE"
          = Some (Some (str "Expenses"))) as H3
    by (vm_compute; reflexivity).
  assert (head (segments (str "Expenses:Bills:Electric"))
          = Some (str "Expenses")) as H4
    by (vm_compute; reflexivity).
  split; [exact H1|]. split; [exact H2|]. split; [exact H3|].
  split; [exact H4|].
  exact (account_name_idempotent uni_word uni_upper bills _ _ _
           None None None uni_upper_nonempty uni_upper_no_sep
           uni_upper_head_stable H1 H2 H3 H4).
Defined.

(** C7 as stated fails: an empty segment of the path is dropped, so the
    identifier has fewer segments than the path. *)
Lemma account_name_drops_empty_segment :
  ACCOUNT_TYPES_MAP !! Account.type checking = Some (Some (str "Assets"))
  ∧ head (segments (Account.fullname checking)) = Some (str "Assets")
  ∧ account_name uni_word uni_upper checking = Ok (str "Assets:My-checking")
  ∧ length (segments (str "Assets:My-checking")) = 2%nat
  ∧ length (segments (Account.fullname checking)) = 3%nat.
Proof. repeat split; vm_compute; reflexivity. Qed.

Lemma account_name_rooted_path_witness :
  ACCOUNT_TYPES_MAP !! Account.type checking = Some (Some (str "Assets"))
  ∧ head (segments (Account.fullname checking)) = Some (str "Assets")
  ∧ account_name uni_word uni_upper checking
    = Ok (normal_form uni_word uni_upper (Account.fullname checking))
  ∧ length (segments
              (normal_form uni_word uni_upper (Account.fullname checking)))
    = length (filter (λ p, p ≠ [])
                (segments (Account.fullname checking))).
Proof.
  assert (ACCOUNT_TYPES_MAP !! Account.type checking
          = Some (Some (str "Assets"))) as H1 by (vm_compute; reflexivity).
  assert (head (segments (Account.fullname checking))
          = Some (str "Assets")) as H2 by (vm_compute; reflexivity).
  split; [exact H1|]. split; [exact H2|].
  exact (account_name_rooted_path uni_word uni_upper checking _
           uni_upper_no_sep uni_word_ascii_letters H1 H2).
Defined.

(** C10 as stated fails: the identifier of a root-category account does
    not begin with a placeholder segment. *)
Lemma account_name_root_no_placeholder :
  Account.type root_account = str "ROOT"
  ∧ account_name uni_word uni_upper root_account = Ok (str "Root-Account")
  ∧ head (segments (str "Root-Account")) = Some (str "Root-Account")
  ∧ head (segments (str "Root-Account")) ≠ Some (str "None").
Proof.
  repeat split; try (vm_compute; reflexivity). vm_compute. discriminate.
Qed.

Lemma account_name_root_category_witness :
  Account.type root_account = str "ROOT"
  ∧ ACCOUNT_TYPES_MAP !! Account.type root_account = Some None
  ∧ insert_root None
      (Some <$> segments
                  (sanitized uni_word (Account.fullname root_account)))
    = None :: (Some <$> segments
                 (sanitized uni_word (Account.fullname root_account)))
  ∧ account_name uni_word uni_upper root_account
    = Ok (normal_form uni_word uni_upper (Account.fullname root_account)).
Proof.
  assert (Account.type root_account = str "ROOT") as H by reflexivity.
  split; [exact H|].
  destruct (account_name_root_category uni_word uni_upper root_account H)
    as (H1 & H2 & _ & H4).
  done.
Defined.

(** ** Metadata *)

Section MetaFrom.
Context `{GetAttr T}.
Variable obj : T.

Lemma meta_fold_lookup keys acc meta :
  foldl (meta_step obj) acc keys = Ok meta →
  ∃ d, acc = Ok d
    ∧ ∀ k v, meta !! k = Some v →
             d !! k = Some v ∨ (getattr obj k = Ok v ∧ truthy v = true).
Proof.
  revert acc. induction keys as [|k0 keys IH]; intros acc Hfold.
  - exists meta. split; [done|]. by left.
  - simpl in Hfold. destruct (IH _ Hfold) as (d' & Hstep & Hd').
    unfold meta_step in Hstep.
    destruct acc as [d|e]; [|done]. simpl in Hstep.
    destruct (getattr obj k0) as [v0|e] eqn:Hget; [|done].
    simpl in Hstep. injection Hstep as <-.
    exists d. split; [done|]. intros k v Hkv.
    destruct (Hd' k v Hkv) as [Hin|?]; [|by right].
    destruct (truthy v0) eqn:Htruthy; [|by left].
    apply lookup_insert_Some in Hin as [[<- <-]|[_ ?]]; [by right|by left].
Qed.

Lemma meta_from_lookup fields meta :
  meta_from obj fields = Ok meta →
  ∀ k v, meta !! k = Some v → getattr obj k = Ok v ∧ truthy v = true.
Proof.
  intros Hm k v Hkv.
  destruct (meta_fold_lookup _ _ _ Hm) as (d & [= <-] & Hd).
  destruct (Hd k v Hkv) as [Hin|?]; [|done].
  by rewrite lookup_empty in Hin.
Qed.
End MetaFrom.


Lemma meta_from_account a :
  meta_from a (str "code description")
  = Ok (meta_set (str "description") (Account.description a)
          (meta_set (str "code") (Account.code a) ∅)).
Proof. reflexivity. Qed.

Lemma meta_from_commodity c :
  meta_from c (str "fullname")
  = Ok (meta_set (str "fullname") (Commodity.fullname c) ∅).
Proof. reflexivity. Qed.

Lemma meta_from_split s :
  meta_from s (str "memo") = Ok (meta_set (str "memo") (Split.memo s) ∅).
Proof. reflexivity. Qed.

Lemma meta_from_transaction t :
  meta_from t (str "num notes")
  = Ok (meta_set (str "notes") (Transaction.notes t)
          (meta_set (str "num") (Transaction.num t) ∅)).
Proof. reflexivity. Qed.

(** C9. In the directive each of the four factories produces, every key
    of the metadata map is a field of the source entity whose value is
    neither absent nor empty, and it is mapped to that value. *)
Theorem metadata_only_nonempty (word : N → bool) (upper : N → pystr) :
  (∀ account date o k v,
     Open word upper account date = Ok o →
     data.open_meta o !! k = Some v →
     getattr account k = Ok v ∧ v ≠ None ∧ v ≠ Some [])
  ∧ (∀ commodity date k v,
       ∃ c, Commodity commodity date = Ok c
         ∧ (data.commodity_meta c !! k = Some v →
            getattr commodity k = Ok v ∧ v ≠ None ∧ v ≠ Some []))
  ∧ (∀ split p k v,
       Posting word upper split = Ok p →
       data.posting_meta p !! k = Some v →
       getattr split k = Ok v ∧ v ≠ None ∧ v ≠ Some [])
  ∧ (∀ txn postings k v,
       ∃ t, Transaction txn postings = Ok t
         ∧ (data.transaction_meta t !! k = Some v →
            getattr txn k = Ok v ∧ v ≠ None ∧ v ≠ Some [])).
Proof.
  assert (∀ v : pyval, truthy v = true → v ≠ None ∧ v ≠ Some []) as Htruthy
    by (by intros [[|??]|]).
  assert (∀ `{GetAttr T} (obj : T) fields meta k v,
            meta_from obj fields = Ok meta → meta !! k = Some v →
            getattr obj k = Ok v ∧ v ≠ None ∧ v ≠ Some []) as Hmeta.
  { intros T ? obj fields meta k v Hm Hkv.
    destruct (meta_from_lookup obj fields meta Hm k v Hkv) as [? ?].
    split; [done|]. by apply Htruthy. }
  split; [|split; [|split]].
  - intros account date o k v Ho.
    unfold Open in Ho.
    destruct (meta_from account (str "code description")) as [meta|]
      eqn:Hm; [|done].
    rewrite bind_Ok in Ho.
    destruct (account_name word upper account); [|done].
    rewrite bind_Ok in Ho. injection Ho as <-.
    by apply Hmeta with (1 := Hm).
  - intros commodity date k v. unfold Commodity.
    rewrite meta_from_commodity. eexists; split; [done|]. simpl.
    intros Hkv. eapply Hmeta; [apply meta_from_commodity|exact Hkv].
  - intros split p k v Hp. unfold Posting in Hp.
    destruct (meta_from split (str "memo")) as [meta|] eqn:Hm; [|done].
    rewrite bind_Ok in Hp.
    destruct (account_name word upper (Split.account split)); [|done].
    rewrite bind_Ok in Hp. destruct (units_for split); [|done].
    rewrite bind_Ok in Hp. destruct (price_for split); [|done].
    rewrite bind_Ok in Hp. injection Hp as <-.
    by apply Hmeta with (1 := Hm).
  - intros txn postings k v. unfold Transaction.
    rewrite meta_from_transaction. eexists; split; [done|]. simpl.
    intros Hkv. eapply Hmeta; [apply meta_from_transaction|exact Hkv].
Qed.


Lemma metadata_only_nonempty_witness :
  Open uni_word uni_upper power 0%Z
  = Ok (data.mkOpen {[ str "description" := Some (str "Power") ]} 0%Z
          (str "Expenses:Bills:Electric") None None)
  ∧ getattr power (str "code") = Ok (Some [])
  ∧ getattr power (str "description") = Ok (Some (str "Power"))
  ∧ Some (str "Power") ≠ None ∧ Some (str "Power") ≠ Some [].
Proof.
  assert (Open uni_word uni_upper power 0%Z
          = Ok (data.mkOpen {[ str "description" := Some (str "Power") ]}
                  0%Z (str "Expenses:Bills:Electric") None None)) as H1
    by (vm_compute; reflexivity).
  assert (data.open_meta
            (data.mkOpen {[ str "description" := Some (str "Power") ]}
               0%Z (str "Expenses:Bills:Electric") None None)
          !! str "description" = Some (Some (str "Power"))) as H2
    by (vm_compute; reflexivity).
  split; [exact H1|]. split; [reflexivity|].
  exact (proj1 (metadata_only_nonempty uni_word uni_upper)
           power 0%Z _ _ _ H1 H2).
Defined.



(** ** Decimals *)


Section Decimal.
Import decimal.
Local Open Scope Z_scope.



Lemma _fix_raise d e : _fix d = Raise e → e = Overflow.
Proof.
  unfold _fix. repeat case_match; congruence.
Qed.




End Decimal.

(** ** Example splits *)


Section PostingTheorems.
Import decimal.
Local Open Scope Z_scope.

(** C5. For every split whose account commodity differs from the
    currency of its transaction and whose quantity and value are both
    zero, [price_for] returns the amount [Decimal('0')] in the
    transaction's currency. *)
Theorem price_for_zero_by_zero split :
  Account.commodity (Split.account split)
    ≠ Some (Transaction.currency (Split.transaction split)) →
  is_zero (Split.quantity split) = true →
  is_zero (Split.value split) = true →
  price_for split
  = Ok (Some (data.mkAmount Decimal_0
                (Commodity.mnemonic
                   (Transaction.currency (Split.transaction split))))).
Proof.
  intros Hne Hq Hv. unfold price_for. rewrite decide_False by done.
  unfold __truediv__. unfold is_zero in Hq, Hv. rewrite Hq, Hv. simpl.
  unfold is_zero. by rewrite Hq.
Qed.

(** C1, amended. For every split whose account commodity differs from
    the currency of its transaction and whose quantity is zero while its
    value is not, the division raises [DivisionByZero], the handler
    catches it, and [price_for] returns the amount [Decimal('0')] in the
    transaction's currency; nothing is raised. *)
Theorem price_for_nonzero_by_zero split :
  Account.commodity (Split.account split)
    ≠ Some (Transaction.currency (Split.transaction split)) →
  is_zero (Split.quantity split) = true →
  is_zero (Split.value split) = false →
  __truediv__ (Split.value split) (Split.quantity split)
    = Raise DivisionByZero
  ∧ price_for split
    = Ok (Some (data.mkAmount Decimal_0
                  (Commodity.mnemonic
                     (Transaction.currency (Split.transaction split))))).
Proof.
  intros Hne Hq Hv. unfold price_for. rewrite decide_False by done.
  unfold __truediv__. unfold is_zero in Hq, Hv. rewrite Hq, Hv. simpl.
  unfold is_zero. by rewrite Hq.
Qed.


End PostingTheorems.

(** ** Examples, and the inputs at which the stated claims fail *)


Lemma euro_split_differs quantity value :
  Account.commodity (Split.account (euro_split quantity value))
  ≠ Some (Transaction.currency (Split.transaction (euro_split quantity value))).
Proof. done. Qed.

Lemma price_for_zero_by_zero_witness :
  decimal.is_zero (Split.quantity nothing_for_nothing) = true
  ∧ decimal.is_zero (Split.value nothing_for_nothing) = true
  ∧ price_for nothing_for_nothing
    = Ok (Some (data.mkAmount Decimal_0 (str "USD"))).
Proof.
  split; [reflexivity|]. split; [reflexivity|].
  exact (price_for_zero_by_zero nothing_for_nothing
           (euro_split_differs _ _) eq_refl eq_refl).
Defined.

(** C1 as stated fails: with a zero quantity and a non-zero value
    [price_for] returns an amount and raises nothing. *)
Lemma price_for_nonzero_by_zero_returns :
  Account.commodity (Split.account nothing_for_one)
    ≠ Some (Transaction.currency (Split.transaction nothing_for_one))
  ∧ decimal.is_zero (Split.quantity nothing_for_one) = true
  ∧ decimal.is_zero (Split.value nothing_for_one) = false
  ∧ price_for nothing_for_one
    = Ok (Some (data.mkAmount Decimal_0 (str "USD")))
  ∧ ∀ e, price_for nothing_for_one ≠ Raise e.
Proof.
  split; [done|]. split; [reflexivity|]. split; [reflexivity|].
  split; [vm_compute; reflexivity|]. intros e. vm_compute. discriminate.
Qed.

Lemma price_for_nonzero_by_zero_witness :
  decimal.is_zero (Split.quantity nothing_for_one) = true
  ∧ decimal.is_zero (Split.value nothing_for_one) = false
  ∧ decimal.__truediv__ (Split.value nothing_for_one)
                        (Split.quantity nothing_for_one)
    = Raise DivisionByZero
  ∧ price_for nothing_for_one
    = Ok (Some (data.mkAmount Decimal_0 (str "USD"))).
Proof.
  split; [reflexivity|]. split; [reflexivity|].
  exact (price_for_nonzero_by_zero nothing_for_one
           (euro_split_differs _ _) eq_refl eq_refl).
Defined.





(** A third of a euro, as [Decimal(1) / 3] gives it: 28 digits. *)
Example units_for_third :
  units_for
    (euro_split (decimal.mk false 3333333333333333333333333333 (-28))
                (decimal.mk false 1 0))
  = Ok (data.mkAmount
          (decimal.mk false 3333333333333333333333333333 (-28))
          (str "EUR")).
Proof. vm_compute. reflexivity. Qed.

(** The examples of the specification. *)

Example units_for_five :
  units_for (euro_split (decimal.mk false 5 0) (decimal.mk false 5 0))
  = Ok (data.mkAmount (decimal.mk false 50 (-1)) (str "EUR")).
Proof. vm_compute. reflexivity. Qed.

Example Commodity_without_fullname :
  Commodity (Commodity.mk 2 (str "EUR") None) 0%Z
  = Ok (data.mkCommodity ∅ 0%Z (str "EUR")).
Proof. vm_compute. reflexivity. Qed.


Example TransactionWithPostings_rent :
  TransactionWithPostings uni_word uni_upper rent
    [ Split.mk None (decimal.mk true 1000 0) (decimal.mk true 1000 0)
        (dollar_account (str "Assets:Checking") (str "BANK")) rent;
      Split.mk None (decimal.mk false 1000 0) (decimal.mk false 1000 0)
        (dollar_account (str "Expenses:Rent") (str "EXPENSE")) rent ]
  = Ok (data.mkTransaction ∅ 0%Z (str "*") [] (str "Rent") None None
          [ data.mkPosting (str "Assets:Checking")
              (data.mkAmount (decimal.mk true 10000 (-1)) (str "USD"))
              None None None ∅;
            data.mkPosting (str "Expenses:Rent")
              (data.mkAmount (decimal.mk false 10000 (-1)) (str "USD"))
              None None None ∅ ]).
Proof. vm_compute. reflexivity. Qed.

(** * Further properties of the module *)

(** ** Categories and the errors of [account_name] *)

Lemma lookup_is_Some ty :
  is_Some (ACCOUNT_TYPES_MAP !! ty) ↔ ty ∈ str "ROOT" :: NON_ROOT_CATEGORIES.
Proof.
  split.
  - intros [v H%ACCOUNT_TYPES_MAP_lookup]. unfold ACCOUNT_TYPES_ITEMS in H.
    repeat (apply elem_of_cons in H as [H|H]; [simplify_eq; compute_done|]).
    by apply elem_of_nil in H.
  - rewrite elem_of_cons. intros [->|H].
    + exists None. by apply lookup_none_inv.
    + destruct (lookup_non_root _ H) as (root & _ & ->). eauto.
Qed.

(** X1. [account_name] returns an identifier exactly for the fourteen
    category names of the table (ROOT and the thirteen others, spelled in
    upper case); for every other category it raises [KeyError], and it
    raises nothing else. *)
Theorem account_name_key_error (word : N → bool) (upper : N → pystr) a :
  (Account.type a ∈ str "ROOT" :: NON_ROOT_CATEGORIES
   ↔ ∃ name, account_name word upper a = Ok name)
  ∧ (Account.type a ∉ str "ROOT" :: NON_ROOT_CATEGORIES
     ↔ account_name word upper a = Raise KeyError)
  ∧ ∀ e, account_name word upper a = Raise e → e = KeyError.
Proof.
  pose proof (lookup_is_Some (Account.type a)) as Hkeys.
  destruct (ACCOUNT_TYPES_MAP !! Account.type a) as [acc_type|] eqn:Hl.
  - rewrite (account_name_lookup word upper a _ Hl).
    assert (Account.type a ∈ str "ROOT" :: NON_ROOT_CATEGORIES) as Hin
      by (apply Hkeys; eauto).
    split; [split; eauto|]. split; [split; [done|discriminate]|].
    by intros e [=].
  - rewrite (account_name_unknown word upper a Hl).
    assert (Account.type a ∉ str "ROOT" :: NON_ROOT_CATEGORIES) as Hout.
    { intros [v Hv]%Hkeys. discriminate. }
    split; [split; [done|by intros [? [=]]]|]. split; [done|].
    by intros e [= <-].
Qed.

Example account_name_lower_case_category :
  account_name uni_word uni_upper (acct (str "Cash") (str "asset"))
  = Raise KeyError.
Proof. vm_compute. reflexivity. Qed.

(** ** The shape of the identifiers *)

Lemma split_all_sep sep s :
  Forall (λ c, c = sep) s → Forall (λ p, p = []) (split sep s).
Proof.
  induction 1 as [|c s -> _ IH]; simpl; [by repeat constructor|].
  rewrite N.eqb_refl. by constructor.
Qed.

Lemma filter_nonempty_all_empty (parts : list pystr) :
  Forall (λ p, p = []) parts → filter (λ p, p ≠ []) parts = [].
Proof.
  induction 1 as [|p ps -> _ IH]; [done|].
  by rewrite filter_cons, decide_False by (intros H; by apply H).
Qed.

Lemma sanitized_idempotent word path :
  sanitized word (sanitized word path) = sanitized word path.
Proof.
  unfold sanitized, re_sub. rewrite <- list_fmap_compose.
  apply list_fmap_ext. intros _ c _. simpl.
  destruct (INVALID_ACCOUNT_CHARS word c) eqn:Hc; [|by rewrite Hc].
  by destruct (INVALID_ACCOUNT_CHARS word (chr "-")).
Qed.

Lemma sanitized_separators word path :
  Forall (λ c, c = ACCOUNT_SEP) path → sanitized word path = path.
Proof.
  unfold sanitized, re_sub. induction 1 as [|c s -> _ IH]; [done|].
  rewrite fmap_cons, IH. f_equal.
  unfold INVALID_ACCOUNT_CHARS. by rewrite N.eqb_refl, orb_true_r.
Qed.

Lemma cap_first_root upper root :
  upper_fixes_capitals upper → root ∈ ROOTS →
  root ≠ [] ∧ cap_first upper root = root.
Proof.
  intros Hcap Hroot.
  destruct (ROOTS_shape _ Hroot) as (c & r & -> & Hc & _ & _).
  split; [done|]. simpl. by rewrite (Hcap c Hc).
Qed.

Lemma account_name_prepends word upper a root :
  upper_fixes_capitals upper →
  ACCOUNT_TYPES_MAP !! Account.type a = Some (Some root) →
  head (segments (sanitized word (Account.fullname a))) ≠ Some root →
  account_name word upper a
  = Ok (join ACCOUNT_SEP
          (root :: (cap_first upper <$>
                      filter (λ p, p ≠ [])
                        (segments (sanitized word (Account.fullname a)))))).
Proof.
  intros Hcap Hl Hhead.
  destruct (cap_first_root upper root Hcap (lookup_root_inv _ _ Hl))
    as [Hne Hfix].
  rewrite (account_name_with_root word upper a root Hl).
  unfold with_root. rewrite decide_False by done.
  by rewrite filter_cons, decide_True, fmap_cons, Hfix.
Qed.

(** X2. Root-mismatch repair. When the category has a root and the first
    segment of the sanitised path is not that root, [account_name] returns
    the root followed by the non-empty segments of the sanitised path,
    each with its first character upper-cased. *)
Theorem account_name_inserts_root (word : N → bool) (upper : N → pystr)
    a root :
  upper_fixes_capitals upper →
  ACCOUNT_TYPES_MAP !! Account.type a = Some (Some root) →
  head (segments (sanitized word (Account.fullname a))) ≠ Some root →
  account_name word upper a
  = Ok (join ACCOUNT_SEP
          (root :: (cap_first upper <$>
                      filter (λ p, p ≠ [])
                        (segments (sanitized word (Account.fullname a)))))).
Proof. apply account_name_prepends. Qed.

Lemma account_name_inserts_root_witness :
  account_name uni_word uni_upper bills
  = Ok (join ACCOUNT_SEP
          (str "Expenses" ::
             (cap_first uni_upper <$>
                filter (λ p, p ≠ [])
                  (segments (sanitized uni_word (Account.fullname bills)))))).
Proof.
  assert (ACCOUNT_TYPES_MAP !! Account.type bills
          = Some (Some (str "Expenses"))) as H1 by (vm_compute; reflexivity).
  assert (head (segments (sanitized uni_word (Account.fullname bills)))
          ≠ Some (str "Expenses")) as H2 by (vm_compute; discriminate).
  exact (account_name_inserts_root uni_word uni_upper bills _
           uni_upper_fixes_capitals H1 H2).
Defined.

(** X3. Empty paths. For an account whose path is empty or holds
    separators only, [account_name] returns the bare root of its category,
    and the empty string for the root pseudo-category. *)
Theorem account_name_only_separators (word : N → bool) (upper : N → pystr)
    a acc_type :
  upper_fixes_capitals upper →
  Forall (λ c, c = ACCOUNT_SEP) (Account.fullname a) →
  ACCOUNT_TYPES_MAP !! Account.type a = Some acc_type →
  account_name word upper a = Ok (default [] acc_type).
Proof.
  intros Hcap Hpath Hl.
  pose proof (filter_nonempty_all_empty _
                (split_all_sep ACCOUNT_SEP _ Hpath)) as Hnone.
  destruct acc_type as [root|]; simpl.
  - destruct (cap_first_root upper root Hcap (lookup_root_inv _ _ Hl))
      as [Hne Hfix].
    rewrite (account_name_with_root word upper a root Hl).
    rewrite (sanitized_separators word _ Hpath).
    destruct (with_root_cons root (segments (Account.fullname a)))
      as (rest & -> & [->|Heq]).
    + rewrite filter_cons, decide_True by done.
      unfold segments. by rewrite Hnone, fmap_cons, Hfix.
    + exfalso. pose proof (split_all_sep ACCOUNT_SEP _ Hpath) as Hall.
      unfold segments in Heq. rewrite Heq in Hall.
      by apply Forall_cons in Hall as [? _].
  - rewrite (account_name_no_root word upper a Hl). unfold normal_form.
    rewrite (sanitized_separators word _ Hpath).
    unfold segments. by rewrite Hnone.
Qed.

Lemma account_name_only_separators_witness :
  account_name uni_word uni_upper (acct (str "::") (str "INCOME"))
  = Ok (str "Income").
Proof.
  assert (Forall (λ c, c = ACCOUNT_SEP) (str "::")) as H1
    by (repeat constructor).
  assert (ACCOUNT_TYPES_MAP !! str "INCOME" = Some (Some (str "Income")))
    as H2 by (vm_compute; reflexivity).
  exact (account_name_only_separators uni_word uni_upper
           (acct (str "::") (str "INCOME")) _
           uni_upper_fixes_capitals H1 H2).
Defined.

(** X4. An identifier that [account_name] returns has no empty segment
    unless it is the empty string: it neither starts nor ends with the
    separator and never holds two separators in a row. *)
Theorem account_name_no_empty_segment (word : N → bool) (upper : N → pystr)
    a name :
  upper_nonempty upper → upper_no_sep upper →
  account_name word upper a = Ok name →
  name ≠ [] →
  [] ∉ segments name.
Proof.
  intros Hne Hsep Hname Hnonempty.
  destruct (ACCOUNT_TYPES_MAP !! Account.type a) as [acc_type|] eqn:Hl;
    [|by rewrite (account_name_unknown word upper a Hl) in Hname].
  destruct (account_name_segments word upper a acc_type Hl)
    as (parts & Hnosep & Heq & _).
  rewrite Heq in Hname. injection Hname as <-.
  set (Q := cap_first upper <$> filter (λ p, p ≠ []) parts) in *.
  assert (Q ≠ []) as HQ by (by intros HQ; rewrite HQ in Hnonempty).
  unfold segments. rewrite split_join; [|done|by apply normalized_no_sep].
  unfold Q. rewrite list_elem_of_fmap.
  intros (p & Hp & [Hpne _]%list_elem_of_filter).
  destruct p as [|c r]; [done|]. simpl in Hp.
  destruct (upper c) eqn:Hu; [by destruct (Hne c)|done].
Qed.

Lemma account_name_no_empty_segment_witness :
  [] ∉ segments (str "Assets:My-checking").
Proof.
  assert (account_name uni_word uni_upper checking
          = Ok (str "Assets:My-checking")) as H1
    by (vm_compute; reflexivity).
  assert (str "Assets:My-checking" ≠ []) as H2 by (vm_compute; discriminate).
  exact (account_name_no_empty_segment uni_word uni_upper checking _
           uni_upper_nonempty uni_upper_no_sep H1 H2).
Defined.

(** X5. The root comparison is exact, before any upper-casing: a path
    whose first segment only becomes the root once its first character is
    upper-cased still gets the root put in front, so the identifier starts
    with the root twice. *)
Theorem account_name_duplicates_root (word : N → bool) (upper : N → pystr)
    a root first rest :
  upper_fixes_capitals upper → upper_no_sep upper →
  ACCOUNT_TYPES_MAP !! Account.type a = Some (Some root) →
  segments (sanitized word (Account.fullname a)) = first :: rest →
  first ≠ root →
  cap_first upper first = root →
  ∃ name, account_name word upper a = Ok name
    ∧ take 2 (segments name) = [root; root].
Proof.
  intros Hcap Hsep Hl Hsegs Hfirst Hcapfirst.
  destruct (cap_first_root upper root Hcap (lookup_root_inv _ _ Hl))
    as [Hne Hfix].
  destruct (ROOTS_shape _ (lookup_root_inv _ _ Hl))
    as (_ & _ & _ & _ & Hrootsep & _).
  pose proof (split_Forall_nosep ACCOUNT_SEP
                (sanitized word (Account.fullname a))) as Hnosep.
  fold (segments (sanitized word (Account.fullname a))) in Hnosep.
  rewrite (account_name_prepends word upper a root Hcap Hl)
    by (rewrite Hsegs; simpl; congruence).
  eexists; split; [done|].
  rewrite Hsegs in *.
  assert (first ≠ []) as Hfne.
  { intros ->. simpl in Hcapfirst. congruence. }
  rewrite filter_cons, decide_True, fmap_cons, Hcapfirst by done.
  unfold segments. rewrite split_join; [done|done|].
  constructor; [done|]. constructor; [done|].
  apply normalized_no_sep; [done|]. by apply Forall_cons in Hnosep as [_ ?].
Qed.

Lemma account_name_duplicates_root_witness :
  ∃ name, account_name uni_word uni_upper
            (acct (str "assets:cash") (str "ASSET")) = Ok name
    ∧ take 2 (segments name) = [str "Assets"; str "Assets"].
Proof.
  assert (ACCOUNT_TYPES_MAP !! str "ASSET" = Some (Some (str "Assets")))
    as H1 by (vm_compute; reflexivity).
  assert (segments (sanitized uni_word (str "assets:cash"))
          = [str "assets"; str "cash"]) as H2 by (vm_compute; reflexivity).
  assert (str "assets" ≠ str "Assets") as H3 by (vm_compute; discriminate).
  assert (cap_first uni_upper (str "assets") = str "Assets") as H4
    by (vm_compute; reflexivity).
  exact (account_name_duplicates_root uni_word uni_upper
           (acct (str "assets:cash") (str "ASSET")) _ _ _
           uni_upper_fixes_capitals uni_upper_no_sep H1 H2 H3 H4).
Defined.

Example account_name_lower_case_root :
  account_name uni_word uni_upper (acct (str "assets:cash") (str "ASSET"))
  = Ok (str "Assets:Assets:Cash").
Proof. vm_compute. reflexivity. Qed.

(** X6. Sanitising is idempotent, and [account_name] reads the path only
    through it: an account whose path has been sanitised beforehand gets
    the same identifier, or the same error, as the original account. *)
Theorem account_name_presanitized (word : N → bool) (upper : N → pystr)
    a :
  sanitized word (sanitized word (Account.fullname a))
  = sanitized word (Account.fullname a)
  ∧ account_name word upper
      (Account.mk (sanitized word (Account.fullname a)) (Account.type a)
                  (Account.code a) (Account.description a)
                  (Account.commodity a))
    = account_name word upper a.
Proof.
  split; [apply sanitized_idempotent|].
  unfold account_name. cbn [Account.fullname Account.type].
  fold (sanitized word (sanitized word (Account.fullname a))).
  fold (sanitized word (Account.fullname a)).
  by rewrite sanitized_idempotent.
Qed.

(** ** Metadata, field by field *)

Section MetaFromExact.
Context `{GetAttr T}.
Variable obj : T.

Lemma meta_fold_snoc keys k acc :
  foldl (meta_step obj) acc (keys ++ [k])
  = meta_step obj (foldl (meta_step obj) acc keys) k.
Proof. by rewrite foldl_app. Qed.

Lemma meta_fold_exact keys meta :
  foldl (meta_step obj) (Ok ∅) keys = Ok meta →
  ∀ k v, meta !! k = Some v
         ↔ k ∈ keys ∧ getattr obj k = Ok v ∧ truthy v = true.
Proof.
  revert meta. induction keys as [|k0 keys IH] using rev_ind;
    intros meta Hfold k v.
  - simpl in Hfold. injection Hfold as <-. rewrite lookup_empty.
    split; [done|]. by intros [?%elem_of_nil _].
  - rewrite meta_fold_snoc in Hfold.
    destruct (foldl (meta_step obj) (Ok ∅) keys) as [d|] eqn:Hd;
      unfold meta_step in Hfold; simpl in Hfold; [|done].
    destruct (getattr obj k0) as [v0|] eqn:Hget; simpl in Hfold; [|done].
    injection Hfold as <-.
    specialize (IH d eq_refl k v). rewrite elem_of_app, list_elem_of_singleton.
    destruct (truthy v0) eqn:Htruthy.
    + rewrite lookup_insert_Some, IH. split.
      * intros [[<- <-]|[Hne (? & ? & ?)]]; eauto.
      * intros ([Hin| ->] & Hv & Ht).
        -- destruct (decide (k0 = k)) as [->|Hne]; [|by right].
           left. split; [done|]. congruence.
        -- left. split; [done|]. congruence.
    + rewrite IH. split.
      * intros (? & ? & ?). eauto.
      * intros ([Hin| ->] & Hv & Ht); [done|]. congruence.
Qed.

Lemma meta_fold_returns keys :
  (∃ meta, foldl (meta_step obj) (Ok ∅) keys = Ok meta)
  ↔ Forall (λ k, ∃ v, getattr obj k = Ok v) keys.
Proof.
  induction keys as [|k0 keys IH] using rev_ind.
  - split; [by constructor|]. by exists ∅.
  - rewrite meta_fold_snoc, Forall_app, Forall_singleton, <- IH.
    destruct (foldl (meta_step obj) (Ok ∅) keys) as [d|];
      unfold meta_step; simpl.
    + destruct (getattr obj k0) as [v0|]; simpl.
      * split; eauto.
      * split; [by intros [? ?]|by intros [_ [? ?]]].
    + split; [by intros [? ?]|by intros [[? ?] _]].
Qed.

(** X7. What [meta_from] builds. It returns a dict exactly when every
    name in [fields] is an attribute of the object; the dict then maps a
    key to a value if and only if the key is one of the names, the value
    is the object's attribute of that name, and the value is true (neither
    [None] nor empty). *)
Theorem meta_from_exact fields :
  ((∃ meta, meta_from obj fields = Ok meta)
   ↔ Forall (λ k, ∃ v, getattr obj k = Ok v) (split (chr " ") fields))
  ∧ ∀ meta, meta_from obj fields = Ok meta →
      ∀ k v, meta !! k = Some v
             ↔ k ∈ split (chr " ") fields
               ∧ getattr obj k = Ok v ∧ truthy v = true.
Proof.
  split; [apply meta_fold_returns|]. intros meta. apply meta_fold_exact.
Qed.
End MetaFromExact.

Example meta_from_unknown_field :
  meta_from power (str "code colour") = Raise AttributeError.
Proof. vm_compute. reflexivity. Qed.

(** ** The category table for any set of roots *)

(** X8. For whatever five root names it is given,
    [_get_account_types_map] builds a table of exactly fourteen keys: ROOT
    mapped to [None], and each of the thirteen categories mapped to the
    root of the pair it is listed in. *)
Theorem account_types_map_entries acc_types ty v :
  _get_account_types_map acc_types !! ty = Some v
  ↔ (ty, v) ∈ [ (str "ROOT", None);
                (str "ASSET", Some (assets acc_types));
                (str "BANK", Some (assets acc_types));
                (str "CASH", Some (assets acc_types));
                (str "MUTUAL", Some (assets acc_types));
                (str "RECEIVABLE", Some (assets acc_types));
                (str "STOCK", Some (assets acc_types));
                (str "TRADING", Some (assets acc_types));
                (str "EQUITY", Some (equity acc_types));
                (str "EXPENSE", Some (expenses acc_types));
                (str "INCOME", Some (income acc_types));
                (str "LIABILITY", Some (liabilities acc_types));
                (str "CREDIT", Some (liabilities acc_types));
                (str "PAYABLE", Some (liabilities acc_types)) ].
Proof.
  symmetry.
  match goal with
  | |- (_, _) ∈ ?items ↔ _ =>
      assert (_get_account_types_map acc_types = list_to_map items) as ->
        by (destruct acc_types; reflexivity);
      apply elem_of_list_to_map
  end.
  vm_compute.
  repeat (constructor;
          [by rewrite ?elem_of_cons, ?elem_of_nil; intuition congruence|]).
  constructor.
Qed.

(** ** Open, Commodity and Transaction *)

Lemma account_name_cases word upper a :
  ((Account.type a ∈ str "ROOT" :: NON_ROOT_CATEGORIES)
   ∧ ∃ name, account_name word upper a = Ok name)
  ∨ ((Account.type a ∉ str "ROOT" :: NON_ROOT_CATEGORIES)
     ∧ account_name word upper a = Raise KeyError).
Proof.
  pose proof (lookup_is_Some (Account.type a)) as Hkeys.
  destruct (ACCOUNT_TYPES_MAP !! Account.type a) as [acc_type|] eqn:Hl.
  - left. split; [apply Hkeys; eauto|].
    rewrite (account_name_lookup word upper a _ Hl). eauto.
  - right. split; [|by apply account_name_unknown].
    intros [v Hv]%Hkeys. discriminate.
Qed.

(** X9. [Open] fails only with [KeyError], and exactly when the account's
    category is not in the table. The directive it returns otherwise
    carries the identifier [account_name] gives, the date it was given, no
    booking method, and as its currencies the one-element list of the
    account commodity's mnemonic, or [None] for an account without
    commodity. *)
Theorem Open_outcomes (word : N → bool) (upper : N → pystr) a d :
  (Account.type a ∈ str "ROOT" :: NON_ROOT_CATEGORIES
   ↔ ∃ o, Open word upper a d = Ok o)
  ∧ (∀ e, Open word upper a d = Raise e →
          e = KeyError
          ∧ Account.type a ∉ str "ROOT" :: NON_ROOT_CATEGORIES)
  ∧ (∀ o, Open word upper a d = Ok o →
          account_name word upper a = Ok (data.open_account o)
          ∧ data.open_date o = d
          ∧ data.open_booking o = None
          ∧ data.open_currencies o
            = (λ c, [Commodity.mnemonic c]) <$> Account.commodity a).
Proof.
  unfold Open. rewrite meta_from_account, bind_Ok.
  destruct (account_name_cases word upper a) as [[Hin [name ->]]|[Hout ->]];
    rewrite ?bind_Ok, ?bind_Raise.
  - split; [split; eauto|]. split; [by intros e [=]|].
    intros o [= <-]. cbn [data.open_account data.open_date
      data.open_booking data.open_currencies].
    by destruct (Account.commodity a).
  - split; [split; [done|by intros [? [=]]]|].
    split; [by intros e [= <-]|]. by intros o [=].
Qed.

(** X10. [Commodity] always returns a directive, for the mnemonic and the
    date it was given; its metadata holds the full name under the key
    fullname, and is empty exactly when the commodity has no full name or
    an empty one. *)
Theorem Commodity_directive commodity d :
  ∃ c, Commodity commodity d = Ok c
    ∧ data.commodity_currency c = Commodity.mnemonic commodity
    ∧ data.commodity_date c = d
    ∧ (data.commodity_meta c = ∅
       ↔ Commodity.fullname commodity = None
         ∨ Commodity.fullname commodity = Some [])
    ∧ (∀ name, Commodity.fullname commodity = Some name → name ≠ [] →
               data.commodity_meta c = {[ str "fullname" := Some name ]}).
Proof.
  unfold Commodity. rewrite meta_from_commodity, bind_Ok.
  eexists; split; [done|].
  cbn [data.commodity_currency data.commodity_date data.commodity_meta].
  split; [done|]. split; [done|].
  unfold meta_set. destruct (Commodity.fullname commodity) as [[|x xs]|];
    cbn [truthy].
  - split; [split; eauto|]. by intros name [= <-].
  - split.
    + split; [|by intros [|]].
      intros Hempty. apply (f_equal (λ m, m !! str "fullname")) in Hempty.
      by rewrite lookup_insert_eq, lookup_empty in Hempty.
    + by intros name [= <-].
  - split; [split; eauto|]. by intros name [=].
Qed.

Lemma meta_set_lookup (k0 : pystr) (v0 : pyval) (d : gmap (list N) pyval)
    (k : pystr) (v : pyval) :
  meta_set k0 v0 d !! k = Some v
  ↔ (k = k0 ∧ v = v0 ∧ truthy v0 = true)
    ∨ ((k ≠ k0 ∨ truthy v0 = false) ∧ d !! k = Some v).
Proof.
  unfold meta_set. destruct (truthy v0) eqn:Ht.
  - rewrite lookup_insert_Some. split.
    + intros [[<- <-]|[? ?]]; [by left|right]. split; [|done]. by left.
    + intros [(-> & -> & _)|[[?|?] ?]]; [by left|by right|done].
  - split; [intros ?; right; split; [by right|done]|].
    intros [(_ & _ & ?)|[_ ?]]; [congruence|done].
Qed.

(** X11. [Transaction] always returns a directive. It keeps the postings
    it is given, in their order, and treats a missing list like an empty
    one; the flag is "*", the payee is empty, the narration is the
    description, the date is the posting date, tags and links are absent,
    and the metadata holds exactly the true ones among num and notes. *)
Theorem Transaction_directive txn postings :
  ∃ t, Transaction txn postings = Ok t
    ∧ data.transaction_postings t = default [] postings
    ∧ Transaction txn None = Transaction txn (Some [])
    ∧ data.transaction_flag t = str "*"
    ∧ data.transaction_payee t = []
    ∧ data.transaction_narration t = Transaction.description txn
    ∧ data.transaction_date t = Transaction.post_date txn
    ∧ data.transaction_tags t = None ∧ data.transaction_links t = None
    ∧ ∀ k v, data.transaction_meta t !! k = Some v
             ↔ (k = str "num" ∧ v = Transaction.num txn
                ∨ k = str "notes" ∧ v = Transaction.notes txn)
               ∧ truthy v = true.
Proof.
  unfold Transaction. rewrite !meta_from_transaction, !bind_Ok.
  eexists; split; [done|].
  cbn [data.transaction_postings data.transaction_flag
       data.transaction_payee data.transaction_narration
       data.transaction_date data.transaction_tags data.transaction_links
       data.transaction_meta].
  split; [by destruct postings as [[|??]|]|].
  do 7 (split; [done|]). intros k v.
  assert (str "num" ≠ str "notes") as Hne by (vm_compute; discriminate).
  rewrite !meta_set_lookup, lookup_empty. split.
  - intros [(-> & -> & ?)|[_ [(-> & -> & ?)|[_ ?]]]]; [eauto..|done].
  - intros [[[-> ->]|[-> ->]] Ht]; [right|by left].
    split; [by left|]. by left.
Qed.

Example Transaction_without_postings :
  Transaction rent None
  = Ok (data.mkTransaction ∅ 0%Z (str "*") [] (str "Rent") None None []).
Proof. vm_compute. reflexivity. Qed.

(** ** Units and prices *)

Section PostingOutcomes.
Import decimal.
Local Open Scope Z_scope.

Lemma _fix_sign d d' : _fix d = Ok d' → _sign d' = _sign d.
Proof.
  unfold _fix. repeat case_match; intros [= <-]; by simplify_eq/=.
Qed.

Lemma abs_quotient_sign value quantity number :
  abs_quotient value quantity = Ok number → _sign number = false.
Proof.
  unfold abs_quotient.
  destruct (__truediv__ value quantity) as [q|];
    rewrite ?bind_Ok, ?bind_Raise; [|done].
  unfold __abs__. intros Hfix. by apply _fix_sign in Hfix.
Qed.

Lemma abs_quotient_raise value quantity e :
  abs_quotient value quantity = Raise e →
  (is_zero quantity = true ∧ caught e = true)
  ∨ (is_zero quantity = false ∧ e = Overflow).
Proof.
  unfold abs_quotient, __truediv__, is_zero.
  destruct (_int quantity =? 0)%N.
  - destruct (_int value =? 0)%N; rewrite bind_Raise; intros [= <-];
      left; done.
  - destruct (if (_int value =? 0)%N then _ else _) as [coeff exp].
    destruct (_fix _) as [q|e'] eqn:Hfix; rewrite ?bind_Ok, ?bind_Raise;
      intros Hq; right; (split; [done|]).
    + unfold __abs__ in Hq. by apply _fix_raise in Hq.
    + injection Hq as <-. by apply _fix_raise in Hfix.
Qed.

Lemma price_for_cases split :
  let acc_comm := Account.commodity (Split.account split) in
  let txn_comm := Transaction.currency (Split.transaction split) in
  (acc_comm = Some txn_comm ∧ price_for split = Ok None)
  ∨ (acc_comm ≠ Some txn_comm
     ∧ ((∃ number,
           _sign number = false
           ∧ price_for split
             = Ok (Some (data.mkAmount number
                           (Commodity.mnemonic txn_comm))))
        ∨ (is_zero (Split.quantity split) = false
           ∧ price_for split = Raise Overflow))).
Proof.
  intros acc_comm txn_comm. unfold price_for. fold acc_comm txn_comm.
  case_decide as Hcomm; [by left|]. right. split; [done|].
  change (_ ← __truediv__ (Split.value split) (Split.quantity split);
          __abs__ _)
    with (abs_quotient (Split.value split) (Split.quantity split)).
  destruct (abs_quotient _ _) as [number|e] eqn:Hq.
  - left. exists number. split; [by eapply abs_quotient_sign|done].
  - destruct (abs_quotient_raise _ _ _ Hq) as [[Hz Hc]|[Hz ->]].
    + left. exists Decimal_0. split; [done|]. by rewrite Hc, Hz.
    + right. split; [done|]. done.
Qed.

(** X12. The price [price_for] returns is never negative and is always
    in the currency of the transaction, and it is only returned when the
    account commodity differs from that currency. The only exception
    [price_for] raises is [decimal.Overflow], and only for a non-zero
    quantity: it raises neither [DivisionByZero] nor [InvalidOperation],
    and the unbound [number] of the handler is never read. *)
Theorem price_for_outcomes split :
  (∀ amount, price_for split = Ok (Some amount) →
     _sign (data.number amount) = false
     ∧ data.currency amount
       = Commodity.mnemonic (Transaction.currency (Split.transaction split))
     ∧ Account.commodity (Split.account split)
       ≠ Some (Transaction.currency (Split.transaction split)))
  ∧ (∀ e, price_for split = Raise e →
       e = Overflow ∧ is_zero (Split.quantity split) = false).
Proof.
  destruct (price_for_cases split)
    as [[Hsame ->]|[Hdiff [(number & Hsign & ->)|[Hz ->]]]].
  - split; [by intros amount [=]|by intros e [=]].
  - split; [|by intros e [=]]. by intros amount [= <-].
  - split; [by intros amount [=]|]. by intros e [= <-].
Qed.

Lemma units_for_cases split :
  (∃ number commodity,
     Account.commodity (Split.account split) = Some commodity
     ∧ _sign number = _sign (Split.quantity split)
     ∧ __mul__ (Split.quantity split) Decimal_1_0 = Ok number
     ∧ units_for split
       = Ok (data.mkAmount number (Commodity.mnemonic commodity)))
  ∨ (__mul__ (Split.quantity split) Decimal_1_0 = Raise Overflow
     ∧ units_for split = Raise Overflow)
  ∨ (Account.commodity (Split.account split) = None
     ∧ units_for split = Raise AttributeError).
Proof.
  unfold units_for.
  destruct (__mul__ (Split.quantity split) Decimal_1_0) as [number|e]
    eqn:Hmul; rewrite ?bind_Ok, ?bind_Raise.
  - destruct (Account.commodity (Split.account split)) as [commodity|];
      rewrite ?bind_Ok, ?bind_Raise.
    + left. exists number, commodity. split; [done|]. split; [|done].
      unfold __mul__ in Hmul. apply _fix_sign in Hmul.
      rewrite Hmul. simpl. apply xorb_false_r.
    + right. by right.
  - right. left. unfold __mul__ in Hmul. by apply _fix_raise in Hmul as ->.
Qed.

(** X13. The units [units_for] returns keep the sign of the quantity and
    carry the mnemonic of the account's commodity. It fails in two ways
    only: with [decimal.Overflow] when the product with [Decimal('1.0')]
    leaves the exponent range, and otherwise with [AttributeError] when
    the account has no commodity; so it never returns for such an
    account. *)
Theorem units_for_outcomes split :
  (∀ amount, units_for split = Ok amount →
     _sign (data.number amount) = _sign (Split.quantity split)
     ∧ ∃ commodity,
         Account.commodity (Split.account split) = Some commodity
         ∧ data.currency amount = Commodity.mnemonic commodity)
  ∧ (∀ e, units_for split = Raise e →
       e = Overflow
       ∨ (e = AttributeError
          ∧ Account.commodity (Split.account split) = None)).
Proof.
  destruct (units_for_cases split)
    as [(number & commodity & Hc & Hsign & _ & ->)|[[_ ->]|[Hc ->]]].
  - split; [|by intros e [=]]. intros amount [= <-]. eauto.
  - split; [by intros amount [=]|]. intros e [= <-]. by left.
  - split; [by intros amount [=]|]. intros e [= <-]. by right.
Qed.
End PostingOutcomes.

(** ** Postings and transactions *)

Section Postings.
Variable word : N → bool.
Variable upper : N → pystr.

Lemma Posting_steps split :
  Posting word upper split
  = (account ← account_name word upper (Split.account split);
     units ← units_for split;
     price ← price_for split;
     Ok (data.mkPosting account units None price None
           (meta_set (str "memo") (Split.memo split) ∅))).
Proof. unfold Posting. by rewrite meta_from_split, bind_Ok. Qed.

Lemma Posting_Ok split p :
  Posting word upper split = Ok p →
  account_name word upper (Split.account split) = Ok (data.posting_account p)
  ∧ units_for split = Ok (data.posting_units p)
  ∧ price_for split = Ok (data.posting_price p)
  ∧ data.posting_cost p = None ∧ data.posting_flag p = None.
Proof.
  rewrite Posting_steps.
  destruct (account_name word upper _) as [account|];
    rewrite ?bind_Ok, ?bind_Raise; [|done].
  destruct (units_for split) as [units|];
    rewrite ?bind_Ok, ?bind_Raise; [|done].
  destruct (price_for split) as [price|];
    rewrite ?bind_Ok, ?bind_Raise; [|done].
  by intros [= <-].
Qed.

Lemma Posting_price split p :
  Posting word upper split = Ok p →
  (data.posting_price p = None
   ↔ Account.commodity (Split.account split)
     = Some (Transaction.currency (Split.transaction split))).
Proof.
  intros (_ & _ & Hprice & _)%Posting_Ok.
  destruct (price_for_cases split)
    as [[Hsame Hp]|[Hdiff [(number & _ & Hp)|[_ Hp]]]];
    rewrite Hp in Hprice; [| |done]; injection Hprice as <-.
  - done.
  - by split.
Qed.

(** X14. A posting that [Posting] returns is put together from
    [account_name], [units_for] and [price_for] on the same split, has no
    cost and no flag, and belongs to an account that has a commodity. Its
    price is absent exactly when the account's commodity is the
    currency of the split's transaction. *)
Theorem Posting_directive split p :
  Posting word upper split = Ok p →
  account_name word upper (Split.account split) = Ok (data.posting_account p)
  ∧ units_for split = Ok (data.posting_units p)
  ∧ price_for split = Ok (data.posting_price p)
  ∧ data.posting_cost p = None ∧ data.posting_flag p = None
  ∧ (∃ commodity,
       Account.commodity (Split.account split) = Some commodity)
  ∧ (data.posting_price p = None
     ↔ Account.commodity (Split.account split)
       = Some (Transaction.currency (Split.transaction split))).
Proof.
  intros Hp. pose proof (Posting_price split p Hp) as Hprice.
  destruct (Posting_Ok split p Hp) as (Ha & Hu & Hpr & Hc & Hf).
  repeat (split; [done|]). split; [|done].
  destruct (units_for_cases split)
    as [(? & commodity & Hcomm & _)|[[_ Hr]|[_ Hr]]]; [eauto|..];
    by rewrite Hr in Hu.
Qed.

(** X15. [Posting] fails only with [KeyError], [AttributeError] or
    [decimal.Overflow]; with [KeyError] exactly when the category of the
    split's account is not in the table; and it never returns for a split
    whose account has no commodity. *)
Theorem Posting_errors split :
  (∀ e, Posting word upper split = Raise e →
        e = KeyError ∨ e = AttributeError ∨ e = Overflow)
  ∧ (Posting word upper split = Raise KeyError
     ↔ Account.type (Split.account split)
       ∉ str "ROOT" :: NON_ROOT_CATEGORIES)
  ∧ (Account.commodity (Split.account split) = None →
     ∀ p, Posting word upper split ≠ Ok p).
Proof.
  rewrite Posting_steps.
  destruct (account_name_cases word upper (Split.account split))
    as [[Hin [name ->]]|[Hout ->]]; rewrite ?bind_Ok, ?bind_Raise.
  - assert (∀ e, (units ← units_for split;
                  price ← price_for split;
                  Ok (data.mkPosting name units None price None
                        (meta_set (str "memo") (Split.memo split) ∅)))
                 = Raise e → e = AttributeError ∨ e = Overflow) as Herr.
    { intros e.
      destruct (units_for_cases split)
        as [(number & commodity & _ & _ & _ & ->)|[[_ ->]|[_ ->]]];
        rewrite ?bind_Ok, ?bind_Raise; [|intros [= <-]; eauto..].
      destruct (price_for_cases split)
        as [[_ ->]|[_ [(? & _ & ->)|[_ ->]]]];
        rewrite ?bind_Ok, ?bind_Raise; [done|done|].
      intros [= <-]. eauto. }
    split; [intros e He; right; by apply Herr|].
    split.
    + split; [|done]. intros He. by destruct (Herr _ He).
    + intros Hnone p.
      destruct (units_for_cases split)
        as [(? & ? & Hsome & _)|[[_ ->]|[_ ->]]];
        rewrite ?bind_Ok, ?bind_Raise; [congruence|done|done].
  - split; [intros e [= <-]; eauto|]. split; [done|]. done.
Qed.

Lemma mapM_Ok {A B} (f : A → result B) l k :
  mapM f l = Ok k ↔ Forall2 (λ x y, f x = Ok y) l k.
Proof.
  revert k. induction l as [|x l IH]; intros k.
  - split; [intros [= <-]; constructor|by intros ->%Forall2_nil_inv_l].
  - change (mapM f (x :: l))
      with (y ← f x; k ← mapM f l; Ok (y :: k)).
    split.
    + destruct (f x) as [y|] eqn:Hx; rewrite ?bind_Ok, ?bind_Raise; [|done].
      destruct (mapM f l) as [k'|] eqn:Hl;
        rewrite ?bind_Ok, ?bind_Raise; [|done].
      intros [= <-]. constructor; [done|]. by apply IH.
    + intros (y & k' & Hx & Hl & ->)%Forall2_cons_inv_l.
      apply IH in Hl. by rewrite Hx, bind_Ok, Hl, bind_Ok.
Qed.

Lemma mapM_Raise {A B} (f : A → result B) l e :
  mapM f l = Raise e
  ↔ ∃ pre x post, l = pre ++ x :: post
      ∧ Forall (λ y, ∃ b, f y = Ok b) pre ∧ f x = Raise e.
Proof.
  induction l as [|x l IH].
  - split; [done|]. intros (pre & x & post & Heq & _). by destruct pre.
  - change (mapM f (x :: l))
      with (y ← f x; k ← mapM f l; Ok (y :: k)).
    split.
    + destruct (f x) as [y|e'] eqn:Hx; rewrite ?bind_Ok, ?bind_Raise.
      * destruct (mapM f l) as [k'|e'] eqn:Hl;
          rewrite ?bind_Ok, ?bind_Raise; [done|].
        intros [= ->].
        destruct (proj1 IH eq_refl) as (pre & x0 & post & -> & Hpre & Hx0).
        exists (x :: pre), x0, post. split; [done|].
        split; [constructor; eauto|done].
      * intros [= ->]. exists [], x, l. split; [done|]. by split.
    + intros (pre & x0 & post & Heq & Hpre & Hx0).
      destruct pre as [|x' pre]; simplify_eq/=.
      * by rewrite Hx0, bind_Raise.
      * apply Forall_cons in Hpre as [[b Hb] Hpre]. rewrite Hb, bind_Ok.
        assert (mapM f (pre ++ x0 :: post) = Raise e) as ->
          by (apply IH; eauto 10).
        by rewrite bind_Raise.
Qed.
Lemma Transaction_postings txn postings :
  ∃ t, Transaction txn (Some postings) = Ok t
    ∧ data.transaction_postings t = postings.
Proof.
  unfold Transaction. rewrite meta_from_transaction, bind_Ok.
  eexists; split; [done|]. by destruct postings.
Qed.

Lemma TransactionWithPostings_Ok txn splits t :
  TransactionWithPostings word upper txn splits = Ok t →
  Forall2 (λ split p, Posting word upper split = Ok p)
          splits (data.transaction_postings t).
Proof.
  unfold TransactionWithPostings.
  destruct (mapM (Posting word upper) splits) as [postings|] eqn:Hm;
    rewrite ?bind_Ok, ?bind_Raise; [|done].
  destruct (Transaction_postings txn postings) as (t' & -> & <-).
  intros [= <-]. by apply mapM_Ok.
Qed.

(** X16. [TransactionWithPostings] returns a directive exactly when
    [Posting] returns for every split. Its postings are then the postings
    of the splits, one for each split and in the order of the splits, and
    the rest of the directive is what [Transaction] makes of the
    transaction. *)
Theorem TransactionWithPostings_postings txn splits :
  ((∃ t, TransactionWithPostings word upper txn splits = Ok t)
   ↔ Forall (λ split, ∃ p, Posting word upper split = Ok p) splits)
  ∧ ∀ t, TransactionWithPostings word upper txn splits = Ok t →
      Forall2 (λ split p, Posting word upper split = Ok p)
              splits (data.transaction_postings t)
      ∧ length (data.transaction_postings t) = length splits
      ∧ Transaction txn (Some (data.transaction_postings t)) = Ok t.
Proof.
  split.
  - unfold TransactionWithPostings. split.
    + intros [t Ht].
      destruct (mapM (Posting word upper) splits) as [postings|] eqn:Hm;
        rewrite ?bind_Ok, ?bind_Raise in Ht; [|done].
      apply mapM_Ok in Hm. clear Ht.
      induction Hm; constructor; eauto.
    + intros Hall.
      assert (∃ postings,
                Forall2 (λ split p, Posting word upper split = Ok p)
                        splits postings) as [postings Hm].
      { induction Hall as [|split splits [p Hp] _ [postings IH]].
        - exists []. constructor.
        - exists (p :: postings). by constructor. }
      apply mapM_Ok in Hm. rewrite Hm, bind_Ok.
      destruct (Transaction_postings txn postings) as (t & -> & _). eauto.
  - intros t Ht.
    pose proof (TransactionWithPostings_Ok txn splits t Ht) as Hall.
    split; [done|]. split; [symmetry; by eapply Forall2_length|].
    unfold TransactionWithPostings in Ht.
    destruct (mapM (Posting word upper) splits) as [postings|] eqn:Hm;
      rewrite ?bind_Ok, ?bind_Raise in Ht; [|done].
    destruct (Transaction_postings txn postings) as (t' & Ht' & Hpost).
    rewrite Ht' in Ht. injection Ht as <-. by rewrite Hpost.
Qed.

(** X17. [TransactionWithPostings] fails exactly when [Posting] fails on
    some split, and then with the exception of the first split on which
    it fails: the splits before it all have postings. *)
Theorem TransactionWithPostings_first_error txn splits e :
  TransactionWithPostings word upper txn splits = Raise e
  ↔ ∃ before split after,
      splits = before ++ split :: after
      ∧ Forall (λ s, ∃ p, Posting word upper s = Ok p) before
      ∧ Posting word upper split = Raise e.
Proof.
  rewrite <- mapM_Raise. unfold TransactionWithPostings.
  destruct (mapM (Posting word upper) splits) as [postings|e'];
    rewrite ?bind_Ok, ?bind_Raise; [|by split; intros [= ->]].
  destruct (Transaction_postings txn postings) as (t & -> & _).
  split; intros [=].
Qed.

(** X18. In a directive that [TransactionWithPostings] returns, the
    posting of a split has no price exactly when the split's account
    commodity is the currency of its transaction; so when every split is
    in the transaction's currency, no posting has a price. *)
Theorem TransactionWithPostings_prices txn splits t :
  TransactionWithPostings word upper txn splits = Ok t →
  Forall2 (λ split p,
             data.posting_price p = None
             ↔ Account.commodity (Split.account split)
               = Some (Transaction.currency (Split.transaction split)))
          splits (data.transaction_postings t)
  ∧ (Forall (λ split,
               Account.commodity (Split.account split)
               = Some (Transaction.currency (Split.transaction split)))
            splits →
     Forall (λ p, data.posting_price p = None)
            (data.transaction_postings t)).
Proof.
  intros Hall%TransactionWithPostings_Ok.
  assert (Forall2 (λ split p,
             data.posting_price p = None
             ↔ Account.commodity (Split.account split)
               = Some (Transaction.currency (Split.transaction split)))
          splits (data.transaction_postings t)) as Hprices.
  { eapply Forall2_impl; [exact Hall|]. intros split p.
    apply Posting_price. }
  split; [done|]. intros Hsame. clear Hall.
  induction Hprices as [|split p splits postings Hp _ IH]; [constructor|].
  apply Forall_cons in Hsame as [Hs Hsame].
  constructor; [by apply Hp|by apply IH].
Qed.
End Postings.

Lemma Posting_directive_witness :
  Posting uni_word uni_upper two_for_three
  = Ok (data.mkPosting (str "Assets:Euro")
          (data.mkAmount (decimal.mk false 20 (-1)) (str "EUR")) None
          (Some (data.mkAmount (decimal.mk false 15 (-1)) (str "USD")))
          None ∅)
  ∧ price_for two_for_three
    = Ok (Some (data.mkAmount (decimal.mk false 15 (-1)) (str "USD")))
  ∧ ∃ commodity,
      Account.commodity (Split.account two_for_three) = Some commodity.
Proof.
  assert (Posting uni_word uni_upper two_for_three
          = Ok (data.mkPosting (str "Assets:Euro")
                  (data.mkAmount (decimal.mk false 20 (-1)) (str "EUR"))
                  None
                  (Some (data.mkAmount (decimal.mk false 15 (-1))
                           (str "USD")))
                  None ∅)) as H by (vm_compute; reflexivity).
  split; [exact H|].
  destruct (Posting_directive uni_word uni_upper two_for_three _ H)
    as (_ & _ & Hprice & _ & _ & Hcommodity & _).
  exact (conj Hprice Hcommodity).
Defined.

Example Posting_without_commodity :
  Posting uni_word uni_upper
    (Split.mk None (decimal.mk false 1 0) (decimal.mk false 1 0)
       (acct (str "Assets:Cash") (str "CASH")) rent)
  = Raise AttributeError.
Proof. vm_compute. reflexivity. Qed.

Lemma TransactionWithPostings_prices_witness :
  ∃ t, TransactionWithPostings uni_word uni_upper rent
         [ Split.mk None (decimal.mk true 1000 0) (decimal.mk true 1000 0)
             (dollar_account (str "Assets:Checking") (str "BANK")) rent;
           Split.mk None (decimal.mk false 1000 0) (decimal.mk false 1000 0)
             (dollar_account (str "Expenses:Rent") (str "EXPENSE")) rent ]
       = Ok t
    ∧ Forall (λ p, data.posting_price p = None)
             (data.transaction_postings t).
Proof.
  eexists. 
  assert (TransactionWithPostings uni_word uni_upper rent
            [ Split.mk None (decimal.mk true 1000 0)
                (decimal.mk true 1000 0)
                (dollar_account (str "Assets:Checking") (str "BANK")) rent;
              Split.mk None (decimal.mk false 1000 0)
                (decimal.mk false 1000 0)
                (dollar_account (str "Expenses:Rent") (str "EXPENSE"))
                rent ]
          = Ok (data.mkTransaction ∅ 0%Z (str "*") [] (str "Rent") None
                  None
                  [ data.mkPosting (str "Assets:Checking")
                      (data.mkAmount (decimal.mk true 10000 (-1))
                         (str "USD"))
                      None None None ∅;
                    data.mkPosting (str "Expenses:Rent")
                      (data.mkAmount (decimal.mk false 10000 (-1))
                         (str "USD"))
                      None None None ∅ ])) as H
    by (vm_compute; reflexivity).
  split; [exact H|].
  apply (proj2 (TransactionWithPostings_prices uni_word uni_upper _ _ _ H)).
  repeat constructor.
Defined.

Example TransactionWithPostings_unknown_category :
  TransactionWithPostings uni_word uni_upper rent
    [ Split.mk None (decimal.mk true 1000 0) (decimal.mk true 1000 0)
        (dollar_account (str "Assets:Checking") (str "BANK")) rent;
      Split.mk None (decimal.mk false 1000 0) (decimal.mk false 1000 0)
        (dollar_account (str "Rent") (str "SPENDING")) rent;
      Split.mk None (decimal.mk false 1 0) (decimal.mk false 1 0)
        (acct (str "Cash") (str "CASH")) rent ]
  = Raise KeyError.
Proof. vm_compute. reflexivity. Qed.

(** X19. Sanitising a path as a whole is the same as sanitising each of
    its segments: the substitution never creates or removes a separator,
    so the sanitised path has the segments of the path, sanitised one by
    one, and as many of them. *)
Theorem sanitized_per_segment (word : N → bool) path :
  segments (sanitized word path)
  = fmap (M := list) (sanitized word) (segments path)
  ∧ length (segments (sanitized word path)) = length (segments path)
  ∧ (ACCOUNT_SEP ∈ sanitized word path ↔ ACCOUNT_SEP ∈ path).
Proof.
  pose proof (split_fmap ACCOUNT_SEP _ path (sanitized_char_sep word)) as Hs.
  split; [exact Hs|]. split.
  - unfold segments, sanitized, re_sub. by rewrite Hs, length_fmap.
  - unfold sanitized, re_sub. rewrite list_elem_of_fmap. split.
    + intros (c & Hc & Hin). symmetry in Hc.
      by apply sanitized_char_sep in Hc as ->.
    + intros Hin. exists ACCOUNT_SEP. split; [|done].
      symmetry. by apply sanitized_char_sep.
Qed.
